(** * grok: the Pub/Sub subscriber (src/subscriber.go)

    A shallow embedding of [PubSubSubscriber]: its constructor and options,
    [Run], the receive callback with its deferred function,
    [createSubscriptionIfNotExists], [retry], [dlq] and [getRetries].

    Go values are modelled as follows.
    - [int] is a 64-bit signed integer: a [Z] with the wrap-around written
      out where the code does arithmetic ([retries++]).
    - [string] is a [string]; [[]byte] is a [list Byte.byte];
      [map[string]string] is a [gmap string string], and a map that may be
      [nil] is an [option] of it.
    - [error] is the text that [Error()] returns; a [nil] error is [None].
    - A panic is an outcome of its own ([Panic]), so that [defer] and
      [recover] can be followed as the code has them.
    - The Pub/Sub service behind [*pubsub.Client] is a [World]: the topics
      and subscriptions that exist, the messages it has accepted, a trace of
      what the subscriber did (log lines, handler invocations, acks), and a
      plan of the failures the service will answer with. *)

From stdpp Require Import gmap strings list fin_maps pretty.
From Stdlib Require Import Ascii.

Open Scope Z_scope.

(** ** strconv: the two functions the subscriber calls *)

Module strconv.

Inductive NumError := ErrSyntax | ErrRange.

(** [int] has 64 bits on the platforms the repository targets. *)
Definition intSize : Z := 64.
Definition maxUint64 : Z := 2 ^ 64 - 1.
Definition maxInt : Z := 2 ^ 63 - 1.
Definition minInt : Z := - 2 ^ 63.

Definition wrap_int (z : Z) : Z := (z + 2 ^ 63) `mod` 2 ^ 64 - 2 ^ 63.

Definition code (c : ascii) : Z := Z.of_N (N_of_ascii c).

(** The digit loop of [ParseUint(s, 10, 64)].  A byte that is not a digit
    ends it with a syntax error and the value 0; a digit that would
    overflow ends it with a range error and the largest value, whatever
    follows that digit. *)
Fixpoint ParseUint_digits (s : string) (n : Z) : Z * option NumError :=
  match s with
  | EmptyString => (n, None)
  | String c rest =>
      if bool_decide (48 ≤ code c ≤ 57) then
        let d := code c - 48 in
        if bool_decide (maxUint64 `div` 10 + 1 ≤ n) then
          (maxUint64, Some ErrRange)
        else
          let n10 := n * 10 in
          let n1 := (n10 + d) `mod` 2 ^ 64 in
          if bool_decide (n1 < n10 ∨ maxUint64 < n1) then
            (maxUint64, Some ErrRange)
          else ParseUint_digits rest n1
      else (0, Some ErrSyntax)
  end.

Definition ParseUint (s : string) : Z * option NumError :=
  match s with
  | EmptyString => (0, Some ErrSyntax)
  | _ => ParseUint_digits s 0
  end.

(** [ParseInt(s, 10, 0)]. *)
Definition ParseInt (s : string) : Z * option NumError :=
  match s with
  | EmptyString => (0, Some ErrSyntax)
  | String c rest =>
      let neg := bool_decide (c = "-"%char) in
      let s' := if bool_decide (c = "+"%char ∨ c = "-"%char) then rest else s in
      match ParseUint s' with
      | (_, Some ErrSyntax) => (0, Some ErrSyntax)
      | (un, _) =>
          let cutoff := 2 ^ (intSize - 1) in
          if negb neg && bool_decide (cutoff ≤ un) then
            (cutoff - 1, Some ErrRange)
          else if neg && bool_decide (cutoff < un) then
            (- cutoff, Some ErrRange)
          else (if neg then - un else un, None)
      end
  end.

(** The fast path of [Atoi]: [ch -= '0'] on a byte, then [ch > 9]. *)
Fixpoint Atoi_digits (s : string) (n : Z) : option Z :=
  match s with
  | EmptyString => Some n
  | String c rest =>
      let ch := (code c - 48) `mod` 256 in
      if bool_decide (9 < ch) then None else Atoi_digits rest (n * 10 + ch)
  end.

Definition Atoi (s : string) : Z * option NumError :=
  let sLen := Z.of_nat (String.length s) in
  if bool_decide (0 < sLen < 19) then
    match s with
    | EmptyString => (0, Some ErrSyntax)
    | String c rest =>
        let signed := bool_decide (c = "-"%char ∨ c = "+"%char) in
        let s' := if signed then rest else s in
        if signed && bool_decide (String.length s' < 1)%nat then
          (0, Some ErrSyntax)
        else
          match Atoi_digits s' 0 with
          | None => (0, Some ErrSyntax)
          | Some n => (if bool_decide (c = "-"%char) then - n else n, None)
          end
    end
  else ParseInt s.

(** [Itoa]: the decimal representation, with a leading [-] below zero. *)
Definition Itoa (i : Z) : string := pretty i.

End strconv.

(** ** Data model *)

(** The text of a Go [error]. *)
Definition error := string.

(** How a Go call ends: it returns, or it panics with a value. *)
Inductive Result (A : Type) :=
| Ret (a : A)
| Panic (v : string).
Arguments Ret {A} a.
Arguments Panic {A} v.

(** The runtime's panic on a nil pointer or a nil function value. *)
Definition nil_dereference : string :=
  "runtime error: invalid memory address or nil pointer dereference".

(** [pubsub.Message], as far as the subscriber reads and writes it. *)
Record Message := mkMessage {
  ID : string;
  Data : list Byte.byte;
  Attributes : option (gmap string string)
}.

Definition set_Attributes (m : Message) (a : gmap string string) : Message :=
  {| ID := ID m; Data := Data m; Attributes := Some a |}.

(** A message the service has accepted on a topic. *)
Record Published := mkPublished {
  pTopic : string;
  pData : list Byte.byte;
  pAttributes : gmap string string
}.

(** [pubsub.SubscriptionConfig]: the topic a subscription is bound to and
    its acknowledgment deadline, in nanoseconds. *)
Record SubscriptionConfig := mkSubscriptionConfig {
  Topic : string;
  AckDeadline : Z
}.

(** [*pubsub.Subscription]: a handle with its receive settings. *)
Record Subscription := mkSubscription {
  subscriptionName : string;
  MaxOutstandingMessages : Z
}.

(** [pubsub.DefaultReceiveSettings.MaxOutstandingMessages]. *)
Definition DefaultMaxOutstandingMessages : Z := 1000.

Inductive Level := InfoLevel | WarnLevel | ErrorLevel.

(** What the subscriber does, in order: a logrus entry (level, fields,
    text), an invocation of the handler for a message, and a call of [Ack]
    on a message. *)
Inductive Event :=
| EvLog (level : Level) (fields : list (string * string)) (text : string)
| EvHandle (id : string)
| EvAck (id : string).

#[global] Instance Level_eq_dec : EqDecision Level.
Proof. solve_decision. Defined.
#[global] Instance Event_eq_dec : EqDecision Event.
Proof. solve_decision. Defined.

Record World := mkWorld {
  topics : gset string;
  subscriptions : gmap string SubscriptionConfig;
  published : list Published;
  trace : list Event;
  faults : list (option error)
}.

(** State passing over the service. *)
Definition St (A : Type) : Type := World → A * World.

Definition emit (e : Event) (w : World) : World :=
  {| topics := topics w; subscriptions := subscriptions w;
     published := published w; trace := trace w ++ [e]; faults := faults w |}.

Definition logf (level : Level) (fields : list (string * string))
    (text : string) (w : World) : World :=
  emit (EvLog level fields text) w.

(** ** The transport (cloud.google.com/go/pubsub)

    Every call to the service takes the next entry of the plan: [Some e]
    makes the call fail with [e], [None] (or an exhausted plan) lets it
    go through.  Whatever can make the real service fail (the network, a
    missing topic, permissions) is such an entry. *)

Definition take_fault : St (option error) := λ w,
  match faults w with
  | [] => (None, w)
  | f :: rest =>
      (f, {| topics := topics w; subscriptions := subscriptions w;
             published := published w; trace := trace w; faults := rest |})
  end.

(** [Subscription.Exists]. *)
Definition Subscription_Exists (id : string) : St (bool * option error) := λ w,
  let '(f, w) := take_fault w in
  match f with
  | Some e => ((false, Some e), w)
  | None => ((bool_decide (id ∈ dom (subscriptions w)), None), w)
  end.

(** [Topic.Exists]. *)
Definition Topic_Exists (id : string) : St (bool * option error) := λ w,
  let '(f, w) := take_fault w in
  match f with
  | Some e => ((false, Some e), w)
  | None => ((bool_decide (id ∈ topics w), None), w)
  end.

(** [Client.CreateTopic]. *)
Definition CreateTopic (id : string) : St (option string * option error) := λ w,
  let '(f, w) := take_fault w in
  match f with
  | Some e => ((None, Some e), w)
  | None =>
      if bool_decide (id ∈ topics w) then
        ((None, Some "rpc error: code = AlreadyExists"), w)
      else
        ((Some id, None),
         {| topics := {[id]} ∪ topics w; subscriptions := subscriptions w;
            published := published w; trace := trace w; faults := faults w |})
  end.

(** [Client.CreateSubscription]. *)
Definition CreateSubscription (id : string) (cfg : SubscriptionConfig)
    : St (option Subscription * option error) := λ w,
  let '(f, w) := take_fault w in
  match f with
  | Some e => ((None, Some e), w)
  | None =>
      if bool_decide (id ∈ dom (subscriptions w)) then
        ((None, Some "rpc error: code = AlreadyExists"), w)
      else
        ((Some (mkSubscription id DefaultMaxOutstandingMessages), None),
         {| topics := topics w; subscriptions := <[id := cfg]> (subscriptions w);
            published := published w; trace := trace w; faults := faults w |})
  end.

(** [Topic.Publish] followed by [Get]: the service accepts the message or
    answers with an error. *)
Definition Topic_Publish (topic : string) (data : list Byte.byte)
    (attributes : gmap string string) : St (option error) := λ w,
  let '(f, w) := take_fault w in
  match f with
  | Some e => (Some e, w)
  | None =>
      (None,
       {| topics := topics w; subscriptions := subscriptions w;
          published := published w ++ [mkPublished topic data attributes];
          trace := trace w; faults := faults w |})
  end.

(** [Message.Ack]. *)
Definition Ack (m : Message) (w : World) : World := emit (EvAck (ID m)) w.

(** The service answers every call of the plan without an error. *)
Definition reliable (w : World) : Prop := Forall (λ f, f = None) (faults w).

#[global] Instance reliable_dec w : Decision (reliable w).
Proof. unfold reliable. apply _. Defined.

(** ** Helpers of the repository that the subscriber calls *)

(** Modelled from the spec: [createTopicIfNotExists] is called by
    src/subscriber.go and defined elsewhere in the package.  Spec 4.1: the
    topic is created if absent, "same idempotency pattern" as the
    subscription, and "any existence-check or creation error is surfaced to
    the caller". *)
Definition createTopicIfNotExists (topicID : string)
    : St (option string * option error) := λ w,
  let '((exists_, err), w) := Topic_Exists topicID w in
  match err with
  | Some e => ((None, Some e), w)
  | None => if exists_ then ((Some topicID, None), w) else CreateTopic topicID w
  end.

(** What [PublishWihAttribrutes] is handed as its [interface{}] argument:
    the bytes of a message ([dlq]) or a deserialized body ([retry]). *)
Inductive Payload (Body : Type) :=
| RawBytes (data : list Byte.byte)
| Value (body : Body).
Arguments RawBytes {Body} data.
Arguments Value {Body} body.

Section Subscriber.

(** The Go type the subscriber is configured with, and [json.Marshal] on
    its values. *)
Context {Body : Type}.
Variable marshal : Body → list Byte.byte + error.

(** Modelled from the spec: [PubSubProducer.PublishWihAttribrutes] is
    called by src/subscriber.go and defined elsewhere in the package.
    Spec 4.2: the payload is serialized to bytes, "serialization failure
    is a local error"; the bytes go to the named topic "with the given
    attribute map attached verbatim"; there is no retry, "the error is
    returned to the caller".  Spec 4.3 and 8: the raw payload that [dlq]
    forwards arrives on the topic "verbatim". *)
Definition PublishWihAttribrutes (topicID : string) (data : Payload Body)
    (attributes : gmap string string) : St (option error) := λ w,
  let body :=
    match data with
    | RawBytes b => inl b
    | Value v => marshal v
    end in
  match body with
  | inr e => (Some e, w)
  | inl b => Topic_Publish topicID b attributes w
  end.

(** [PubSubSubscriber].  The [client] is the [World] the functions run
    in, so that [WithClient] has no counterpart, and [producer] is
    [PublishWihAttribrutes] on that client.  [handler] is the caller's
    function: it returns [nil], returns an error or panics, and whatever
    else it does is outside the subscriber.  [handleType] stands for the
    [reflect.Type]: what [reflect.New] and [json.Unmarshal] make of a
    payload.  [ackDeadline] is a [time.Duration], in nanoseconds.  A field
    that no option has set holds its zero value: [None] for a [nil]
    handler or type. *)
Record PubSubSubscriber := mkPubSubSubscriber {
  handler : option (Body → Result (option error));
  subscriberID : string;
  topicID : string;
  handleType : option (list Byte.byte → Body + error);
  maxRetries : Z;
  maxRetriesAttribute : string;
  maxOutstandingMessages : Z;
  ackDeadline : Z
}.

Definition PubSubSubscriberOption := PubSubSubscriber → PubSubSubscriber.

Definition WithHandler (h : Body → Result (option error))
    : PubSubSubscriberOption := λ s,
  mkPubSubSubscriber (Some h) (subscriberID s) (topicID s) (handleType s)
    (maxRetries s) (maxRetriesAttribute s) (maxOutstandingMessages s)
    (ackDeadline s).

Definition WithPubSubSubscriberID (id : string) : PubSubSubscriberOption := λ s,
  mkPubSubSubscriber (handler s) id (topicID s) (handleType s)
    (maxRetries s) (maxRetriesAttribute s) (maxOutstandingMessages s)
    (ackDeadline s).

Definition WithTopicID (t : string) : PubSubSubscriberOption := λ s,
  mkPubSubSubscriber (handler s) (subscriberID s) t (handleType s)
    (maxRetries s) (maxRetriesAttribute s) (maxOutstandingMessages s)
    (ackDeadline s).

Definition WithType (t : list Byte.byte → Body + error)
    : PubSubSubscriberOption := λ s,
  mkPubSubSubscriber (handler s) (subscriberID s) (topicID s) (Some t)
    (maxRetries s) (maxRetriesAttribute s) (maxOutstandingMessages s)
    (ackDeadline s).

Definition WithMaxRetries (n : Z) : PubSubSubscriberOption := λ s,
  mkPubSubSubscriber (handler s) (subscriberID s) (topicID s) (handleType s)
    n (maxRetriesAttribute s) (maxOutstandingMessages s) (ackDeadline s).

Definition WithMaxOutstandingMessages (n : Z) : PubSubSubscriberOption := λ s,
  mkPubSubSubscriber (handler s) (subscriberID s) (topicID s) (handleType s)
    (maxRetries s) (maxRetriesAttribute s) n (ackDeadline s).

Definition WithAckDeadline (t : Z) : PubSubSubscriberOption := λ s,
  mkPubSubSubscriber (handler s) (subscriberID s) (topicID s) (handleType s)
    (maxRetries s) (maxRetriesAttribute s) (maxOutstandingMessages s) t.

Definition Second : Z := 1000000000.

Definition NewPubSubSubscriber (opts : list PubSubSubscriberOption)
    : PubSubSubscriber :=
  let subscriber :=
    mkPubSubSubscriber None "" "" None 5 "" DefaultMaxOutstandingMessages
      (10 * Second) in
  let subscriber := foldl (λ s opt, opt s) subscriber opts in
  mkPubSubSubscriber (handler subscriber) (subscriberID subscriber)
    (topicID subscriber) (handleType subscriber) (maxRetries subscriber)
    "retries" (maxOutstandingMessages subscriber) (ackDeadline subscriber).

Variable s : PubSubSubscriber.

(** [getRetries]: allocates the attribute map of the message when it is
    [nil], and returns the count with the message as it leaves it. *)
Definition getRetries (message : Message) : Z * Message :=
  let attributes := default ∅ (Attributes message) in
  let message := set_Attributes message attributes in
  let retries :=
    match attributes !! maxRetriesAttribute s with
    | Some attribute => fst (strconv.Atoi attribute)
    | None => 0
    end in
  (retries, message).

(** [dlq]. *)
Definition dlq (message : Message) (e : error) : St (option error) := λ w,
  let dlq := topicID s +:+ "_dlq" in
  let w := logf InfoLevel []
             ("sending message " +:+ ID message +:+ " to " +:+ dlq) w in
  let '((_, err), w) := createTopicIfNotExists dlq w in
  match err with
  | Some e' => (Some e', w)
  | None =>
      let attributes : gmap string string := <["error" := e]> ∅ in
      PublishWihAttribrutes dlq (RawBytes (Data message)) attributes w
  end.

(** [retry].  The write to the attribute map panics on a [nil] map. *)
Definition retry (message : Message) (body : Body)
    : World → Result (option error) * Message * World := λ w,
  let '(retries, message) := getRetries message in
  let retries := strconv.wrap_int (retries + 1) in
  match Attributes message with
  | None => (Panic "assignment to entry in nil map", message, w)
  | Some attributes =>
      let attributes :=
        <[maxRetriesAttribute s := strconv.Itoa retries]> attributes in
      let message := set_Attributes message attributes in
      let '(err, w) :=
        PublishWihAttribrutes (topicID s) (Value body) attributes w in
      (Ret err, message, w)
  end.

(** [createSubscriptionIfNotExists]. *)
Definition createSubscriptionIfNotExists (subscriberID topicID : string)
    (ackDeadline : Z) : St (option Subscription * option error) := λ w,
  let subscriber := mkSubscription subscriberID DefaultMaxOutstandingMessages in
  let '((exists_, err), w) := Subscription_Exists subscriberID w in
  if bool_decide (err ≠ None) || exists_ then ((Some subscriber, err), w)
  else
    let '((topic, err), w) := createTopicIfNotExists topicID w in
    match err with
    | Some e =>
        let w := logf ErrorLevel [("error", e)]
                   ("error creating topic " +:+ topicID) w in
        ((None, Some e), w)
    | None =>
        let '((subscriber, err), w) :=
          CreateSubscription subscriberID
            (mkSubscriptionConfig (default topicID topic) ackDeadline) w in
        match err with
        | Some e =>
            let w := logf ErrorLevel [("error", e)]
                       ("error creating subscription " +:+ subscriberID) w in
            ((None, Some e), w)
        | None => ((subscriber, None), w)
        end
    end.

(** ** The receive callback of [Run] *)

(** [reflect.New(s.handleType).Interface()] and [json.Unmarshal] into it.
    [reflect.New] panics on a [nil] type. *)
Definition decode (message : Message) : Result (Body + error) :=
  match handleType s with
  | None => Panic "reflect: New(nil)"
  | Some unmarshal => Ret (unmarshal (Data message))
  end.

(** [s.handler(body)]: calling a [nil] function value panics. *)
Definition invoke (body : Body) : Result (option error) :=
  match handler s with
  | None => Panic nil_dereference
  | Some h => h body
  end.

(** The [switch] on [s.getRetries(message) >= s.maxRetries], entered when
    the handler has returned the error [e]: the dead-letter or the retry
    publish, and the log line when that publish fails.  The result is the
    panic in flight, if any. *)
Definition classify (message : Message) (body : Body) (e : error)
    : World → option string * Message * World := λ w,
  let '(retries, message) := getRetries message in
  if bool_decide (maxRetries s ≤ retries) then
    let '(err, w) := dlq message e w in
    let w :=
      match err with
      | Some e' => logf ErrorLevel [("error", e')]
                     ("error sending message " +:+ ID message +:+ " to dlq") w
      | None => w
      end in
    (None, message, w)
  else
    match retry message body w with
    | (Panic v, message, w) => (Some v, message, w)
    | (Ret err, message, w) =>
        let w :=
          match err with
          | Some e' => logf ErrorLevel [("error", e')]
                         ("error retrying message " +:+ ID message) w
          | None => w
          end in
        (None, message, w)
    end.

(** The statements of the callback that follow the [defer]: from
    [started := time.Now()] to the last [message.Ack()].  The result holds
    the variable [err] that the deferred function has captured, which is
    [nil] until the handler has returned, and the panic in flight, if any.
    The clock is not modelled: the [elapsed] field of the last log line is
    left out. *)
Definition guarded (message : Message) (body : Body)
    : World → option error * option string * Message * World := λ w,
  let w := logf InfoLevel [] ("processing message " +:+ ID message) w in
  let w := emit (EvHandle (ID message)) w in
  match invoke body with
  | Panic v => (None, Some v, message, w)
  | Ret err =>
      let '(panicking, message, w) :=
        match err with
        | Some e =>
            let w := logf ErrorLevel [("error", e)]
                       ("error processing message " +:+ ID message) w in
            classify message body e w
        | None => (None, message, w)
        end in
      match panicking with
      | Some v => (err, Some v, message, w)
      | None =>
          let w := logf InfoLevel []
                     ("sending ack to message " +:+ ID message) w in
          (err, None, message, Ack message w)
      end
  end.

(** [recover()]: returns the value of the panic in flight and stops it. *)
Definition recover (panicking : option string) : option string * option string :=
  (panicking, None).

(** The deferred function: [if recover(); err != nil { ... }].  The value
    of [recover()] is dropped; the condition reads the captured [err]. *)
Definition deferred (message : Message) (err : option error)
    (panicking : option string) : World → option string * Message * World := λ w,
  let '(_, panicking) := recover panicking in
  match err with
  | Some e =>
      let w := logf WarnLevel
                 [("error", e); ("content", String.string_of_list_byte (Data message))]
                 ("consumer panicked with message " +:+ ID message
                    +:+ " - sending to dlq") w in
      let '(_, w) := dlq message e w in
      (panicking, message, Ack message w)
  | None => (panicking, message, w)
  end.

(** The function literal handed to [subscriber.Receive]. *)
Definition callback (message : Message)
    : World → Result unit * Message * World := λ w,
  match decode message with
  | Panic v => (Panic v, message, w)
  | Ret (inr e) =>
      let w := logf ErrorLevel
                 [("error", e); ("content", String.string_of_list_byte (Data message))]
                 ("cannot unmarshal message " +:+ ID message
                    +:+ " - sending to dlq") w in
      let '(_, w) := dlq message e w in
      (Ret (), message, Ack message w)
  | Ret (inl body) =>
      let '(err, panicking, message, w) := guarded message body w in
      let '(panicking, message, w) := deferred message err panicking w in
      match panicking with
      | Some v => (Panic v, message, w)
      | None => (Ret (), message, w)
      end
  end.

(** [Subscription.Receive]: the service hands the messages of
    [deliveries] to the callback, and returns when the context is done or
    with its own error.  Deliveries are taken one after the other: the
    subscriber keeps no state between them.  A panic that leaves the
    callback ends the loop. *)
Fixpoint Receive (deliveries : list Message) (w : World)
    : Result (option error) * World :=
  match deliveries with
  | [] => let '(f, w) := take_fault w in (Ret f, w)
  | message :: rest =>
      match callback message w with
      | (Panic v, _, w) => (Panic v, w)
      | (Ret _, _, w) => Receive rest w
      end
  end.

(** [Run].  The receive settings are written through the subscription
    pointer before [err] is looked at. *)
Definition Run (deliveries : list Message) : World → Result (option error) * World := λ w,
  let '((subscriber, err), w) :=
    createSubscriptionIfNotExists (subscriberID s) (topicID s) (ackDeadline s) w in
  match subscriber with
  | None => (Panic nil_dereference, w)
  | Some subscriber =>
      let subscriber :=
        mkSubscription (subscriptionName subscriber) (maxOutstandingMessages s) in
      match err with
      | Some e =>
          let w := logf ErrorLevel [("error", e)]
                     ("error starting " +:+ subscriberID s) w in
          (Ret (Some e), w)
      | None =>
          let w := logf InfoLevel []
                     ("starting consumer " +:+ subscriberID s
                        +:+ " with topic " +:+ topicID s) w in
          Receive deliveries w
      end
  end.

End Subscriber.

Arguments PubSubSubscriber Body : clear implicits.

(** ** Observations on a world *)

(** How many times the event [ev] occurs in a trace. *)
Definition occurrences (ev : Event) (l : list Event) : nat :=
  length (filter (λ e, e = ev) l).

(** How many times [Ack] has been called on the message [id]. *)
Definition ack_count (id : string) (w : World) : nat :=
  occurrences (EvAck id) (trace w).

(** How many times the handler has been invoked for the message [id]. *)
Definition handle_count (id : string) (w : World) : nat :=
  occurrences (EvHandle id) (trace w).

Definition is_log (e : Event) : bool :=
  match e with EvLog _ _ _ => true | _ => false end.

(** The value of the ["retries"] attribute of a message, if it has one. *)
Definition retries_attribute (m : Message) : option string :=
  Attributes m ≫= (λ a : gmap string string, a !! "retries").

(** The message the service delivers, under the identifier [id], for a
    message it has accepted. *)
Definition deliver (id : string) (p : Published) : Message :=
  mkMessage id (pData p) (Some (pAttributes p)).

(** The syntax of a decimal integer: an optional sign, then at least one
    digit. *)
Definition is_digit (c : ascii) : bool :=
  bool_decide (48 ≤ strconv.code c ≤ 57).

Fixpoint all_digits (s : string) : bool :=
  match s with
  | EmptyString => true
  | String c rest => is_digit c && all_digits rest
  end.

Definition is_decimal_integer (s : string) : bool :=
  match s with
  | EmptyString => false
  | String c rest =>
      if bool_decide (c = "+"%char ∨ c = "-"%char) then
        match rest with EmptyString => false | _ => all_digits rest end
      else all_digits s
  end.

(** The message that [dlq] forwards for [m] and the error [e]. *)
Definition dead_letter {Body} (s : PubSubSubscriber Body) (m : Message)
    (e : error) : Published :=
  mkPublished (topicID s +:+ "_dlq") (Data m) {["error" := e]}.

(** The attribute map that [retry] republishes [m] with. *)
Definition retry_attributes {Body} (s : PubSubSubscriber Body) (m : Message)
    : gmap string string :=
  <[maxRetriesAttribute s :=
      strconv.Itoa (strconv.wrap_int (fst (getRetries s m) + 1))]>
    (default ∅ (Attributes m)).

(** The log entries of the callback, [dlq] and [retry], by name. *)
Definition processing_log (m : Message) : Event :=
  EvLog InfoLevel [] ("processing message " +:+ ID m).

Definition handler_error_log (m : Message) (e : error) : Event :=
  EvLog ErrorLevel [("error", e)] ("error processing message " +:+ ID m).

Definition sending_ack_log (m : Message) : Event :=
  EvLog InfoLevel [] ("sending ack to message " +:+ ID m).

Definition panicked_log (m : Message) (e : error) : Event :=
  EvLog WarnLevel [("error", e); ("content", String.string_of_list_byte (Data m))]
    ("consumer panicked with message " +:+ ID m +:+ " - sending to dlq").

Definition unmarshal_error_log (m : Message) (e : error) : Event :=
  EvLog ErrorLevel [("error", e); ("content", String.string_of_list_byte (Data m))]
    ("cannot unmarshal message " +:+ ID m +:+ " - sending to dlq").

Definition dlq_log {Body} (s : PubSubSubscriber Body) (m : Message) : Event :=
  EvLog InfoLevel []
    ("sending message " +:+ ID m +:+ " to " +:+ (topicID s +:+ "_dlq")).

Definition dlq_error_log (m : Message) (e : error) : Event :=
  EvLog ErrorLevel [("error", e)]
    ("error sending message " +:+ ID m +:+ " to dlq").

Definition retry_error_log (m : Message) (e : error) : Event :=
  EvLog ErrorLevel [("error", e)] ("error retrying message " +:+ ID m).

(** ** A sample configuration

    The payload type is a Go [int], written as a JSON number.  The handler
    accepts 0, rejects the positive numbers with an error and panics on the
    negative ones.  The topic is [orders] and the retry limit is 2. *)

Module Sample.

Definition unmarshal (data : list Byte.byte) : Z + error :=
  match strconv.Atoi (String.string_of_list_byte data) with
  | (n, None) => inl n
  | (_, Some _) => inr "json: cannot unmarshal into Go value of type int"
  end.

Definition marshal (n : Z) : list Byte.byte + error :=
  inl (String.list_byte_of_string (strconv.Itoa n)).

Definition handle (n : Z) : Result (option error) :=
  if bool_decide (n = 0) then Ret None
  else if bool_decide (0 < n) then Ret (Some "order rejected")
  else Panic "negative order".

Definition subscriber : PubSubSubscriber Z :=
  NewPubSubSubscriber
    [WithPubSubSubscriberID "orders-sub"; WithTopicID "orders";
     WithType unmarshal; WithHandler handle; WithMaxRetries 2].

Definition bytes (s : string) : list Byte.byte := String.list_byte_of_string s.

(** A service with nothing on it that answers every call. *)
Definition empty : World := mkWorld ∅ ∅ [] [] [].

(** The same service with a plan of answers. *)
Definition planned (plan : list (option error)) : World :=
  mkWorld ∅ ∅ [] [] plan.

(** A service on which the topic and the subscription exist. *)
Definition provisioned : World :=
  mkWorld {["orders"]} {["orders-sub" := mkSubscriptionConfig "orders" (10 * Second)]}
    [] [] [].

Definition fresh (id payload : string) : Message :=
  mkMessage id (bytes payload) None.

Definition retried (id payload count : string) : Message :=
  mkMessage id (bytes payload) (Some {["retries" := count]}).

End Sample.

(** ** Further observations *)

(** The options that leave the retry limit, the deadline and the number of
    outstanding messages alone. *)
Definition basic_option {Body} (opt : @PubSubSubscriberOption Body) : Prop :=
  (∃ h, opt = WithHandler h) ∨ (∃ id, opt = WithPubSubSubscriberID id)
  ∨ (∃ t, opt = WithTopicID t) ∨ (∃ t, opt = WithType t).

(** The payload of the message deserializes into the configured type. *)
Definition deserializes {Body} (s : PubSubSubscriber Body) (m : Message) : bool :=
  match decode s m with
  | Ret (inl _) => true
  | _ => false
  end.

(** The handler panics on the deserialized payload of the message. *)
Definition handler_panics {Body} (s : PubSubSubscriber Body) (m : Message) : Prop :=
  ∃ body v, decode s m = Ret (inl body) ∧ invoke s body = Panic v.


(** An event of the delivery of [m]: a log entry, or the handler invocation
    or an ack for [m] itself. *)
Definition own_event (m : Message) (ev : Event) : Prop :=
  is_log ev = true ∨ ev = EvHandle (ID m) ∨ ev = EvAck (ID m).

(** The two topics a subscriber publishes to. *)
Definition own_topic {Body} (s : PubSubSubscriber Body) (p : Published) : Prop :=
  pTopic p = topicID s ∨ pTopic p = topicID s +:+ "_dlq".

(** * Properties *)

(** ** The transport and the helpers *)

Lemma take_fault_reliable w :
  reliable w →
  ∃ w', take_fault w = (None, w') ∧ reliable w'
        ∧ topics w' = topics w ∧ subscriptions w' = subscriptions w
        ∧ published w' = published w ∧ trace w' = trace w.
Proof.
  unfold reliable, take_fault. intros H.
  destruct (faults w) as [|f fs] eqn:E.
  - exists w. rewrite E. repeat split; constructor.
  - inversion H; subst. eexists. repeat split; done.
Qed.

Lemma take_fault_rest w :
  topics (snd (take_fault w)) = topics w
  ∧ subscriptions (snd (take_fault w)) = subscriptions w
  ∧ published (snd (take_fault w)) = published w
  ∧ trace (snd (take_fault w)) = trace w.
Proof. unfold take_fault. by destruct (faults w). Qed.

Lemma createTopicIfNotExists_rest topicID w :
  published (snd (createTopicIfNotExists topicID w)) = published w
  ∧ trace (snd (createTopicIfNotExists topicID w)) = trace w
  ∧ subscriptions (snd (createTopicIfNotExists topicID w)) = subscriptions w.
Proof.
  unfold createTopicIfNotExists, Topic_Exists, CreateTopic.
  destruct (take_fault w) as [f w1] eqn:E1.
  pose proof (take_fault_rest w) as R1. rewrite E1 in R1. simpl in R1.
  destruct R1 as (? & ? & ? & ?).
  destruct f; simpl; [repeat split; congruence|].
  case_bool_decide; simpl; [repeat split; congruence|].
  destruct (take_fault w1) as [f w2] eqn:E2.
  pose proof (take_fault_rest w1) as R2. rewrite E2 in R2. simpl in R2.
  destruct R2 as (? & ? & ? & ?).
  destruct f; simpl; [repeat split; congruence|].
  case_bool_decide; simpl; repeat split; congruence.
Qed.

Lemma createTopicIfNotExists_reliable topicID w :
  reliable w →
  ∃ t w', createTopicIfNotExists topicID w = ((t, None), w') ∧ reliable w'
          ∧ published w' = published w ∧ trace w' = trace w.
Proof.
  intros H. unfold createTopicIfNotExists, Topic_Exists, CreateTopic.
  destruct (take_fault_reliable w H) as (w1 & -> & H1 & T1 & S1 & P1 & R1).
  simpl. case_bool_decide; simpl; [by eauto 10|].
  destruct (take_fault_reliable w1 H1) as (w2 & -> & H2 & T2 & S2 & P2 & R2).
  simpl. case_bool_decide; simpl.
  - exfalso. congruence.
  - eexists _, _. split; [done|]. simpl. repeat split; try congruence. done.
Qed.

(** ** Publishing: [dlq] and [retry] *)

Section Publishing.

Context {Body : Type}.
Variable marshal : Body → list Byte.byte + error.
Variable s : PubSubSubscriber Body.

Lemma Topic_Publish_cases topic data attrs w :
  trace (snd (Topic_Publish topic data attrs w)) = trace w
  ∧ ((∃ e, fst (Topic_Publish topic data attrs w) = Some e
           ∧ published (snd (Topic_Publish topic data attrs w)) = published w)
     ∨ (fst (Topic_Publish topic data attrs w) = None
        ∧ published (snd (Topic_Publish topic data attrs w))
          = published w ++ [mkPublished topic data attrs])).
Proof.
  unfold Topic_Publish.
  destruct (take_fault w) as [f w1] eqn:E1.
  pose proof (take_fault_rest w) as R1. rewrite E1 in R1. simpl in R1.
  destruct R1 as (? & ? & ? & ?).
  destruct f; simpl; (split; [congruence|]).
  - left. eexists. split; [done|congruence].
  - right. split; [done|congruence].
Qed.

Lemma Topic_Publish_reliable topic data attrs w :
  reliable w →
  ∃ w', Topic_Publish topic data attrs w = (None, w') ∧ reliable w'
        ∧ published w' = published w ++ [mkPublished topic data attrs]
        ∧ trace w' = trace w.
Proof.
  intros H. unfold Topic_Publish.
  destruct (take_fault_reliable w H) as (w1 & -> & H1 & T1 & S1 & P1 & R1).
  simpl. eexists. split; [done|]. simpl. repeat split; try congruence. done.
Qed.

Lemma dlq_trace m e w :
  trace (snd (dlq marshal s m e w)) = trace w ++ [dlq_log s m].
Proof.
  unfold dlq, PublishWihAttribrutes.
  set (w0 := logf _ _ _ w).
  destruct (createTopicIfNotExists _ w0) as [[t err] w1] eqn:E1.
  pose proof (createTopicIfNotExists_rest (topicID s +:+ "_dlq") w0) as R.
  rewrite E1 in R; simpl in R. destruct R as (_ & R & _).
  destruct err; simpl; [done|].
  match goal with |- context [Topic_Publish ?a ?b ?c ?d] =>
    pose proof (Topic_Publish_cases a b c d) as [-> _] end.
  done.
Qed.

Lemma dlq_published m e w :
  (fst (dlq marshal s m e w) ≠ None
   ∧ published (snd (dlq marshal s m e w)) = published w)
  ∨ (fst (dlq marshal s m e w) = None
     ∧ published (snd (dlq marshal s m e w)) = published w ++ [dead_letter s m e]).
Proof.
  unfold dlq, PublishWihAttribrutes, dead_letter.
  set (w0 := logf _ _ _ w).
  destruct (createTopicIfNotExists _ w0) as [[t err] w1] eqn:E1.
  pose proof (createTopicIfNotExists_rest (topicID s +:+ "_dlq") w0) as R.
  rewrite E1 in R; simpl in R. destruct R as (R & _ & _).
  destruct err; simpl; [by left|].
  rewrite insert_empty.
  match goal with |- context [Topic_Publish ?a ?b ?c ?d] =>
    pose proof (Topic_Publish_cases a b c d) as [_ [(e' & -> & ->)| [-> ->]]] end.
  - by left.
  - right. by rewrite R.
Qed.

Lemma dlq_reliable m e w :
  reliable w →
  ∃ w', dlq marshal s m e w = (None, w') ∧ reliable w'
        ∧ published w' = published w ++ [dead_letter s m e]
        ∧ trace w' = trace w ++ [dlq_log s m].
Proof.
  intros H. pose proof (dlq_trace m e w) as T.
  unfold dlq, PublishWihAttribrutes, dead_letter in *.
  set (w0 := logf _ _ _ w) in *.
  assert (H0 : reliable w0) by done.
  destruct (createTopicIfNotExists_reliable (topicID s +:+ "_dlq") w0 H0)
    as (t & w1 & E1 & H1 & P1 & T1).
  rewrite E1 in *. rewrite insert_empty in *.
  match goal with |- context [Topic_Publish ?a ?b ?c ?d] =>
    destruct (Topic_Publish_reliable a b c d H1) as (w2 & E2 & H2 & P2 & T2) end.
  rewrite E2 in *. exists w2. repeat split; try done.
  by rewrite P2, P1.
Qed.

Lemma getRetries_message m :
  snd (getRetries s m) = set_Attributes m (default ∅ (Attributes m)).
Proof. done. Qed.

(** [retry] never panics: [getRetries] has allocated the map. *)
Lemma retry_returns m body w :
  ∃ err w', retry marshal s m body w
            = (Ret err, set_Attributes m (retry_attributes s m), w')
    ∧ trace w' = trace w
    ∧ ((err ≠ None ∧ published w' = published w)
       ∨ (∃ b, err = None ∧ marshal body = inl b
               ∧ published w'
                 = published w ++ [mkPublished (topicID s) b (retry_attributes s m)])).
Proof.
  unfold retry, retry_attributes, getRetries, PublishWihAttribrutes. simpl.
  destruct (marshal body) as [b|e'] eqn:M.
  - match goal with |- context [Topic_Publish ?a ?b ?c ?d] =>
      pose proof (Topic_Publish_cases a b c d) as [T C];
      destruct (Topic_Publish a b c d) as [err w'] end.
    simpl in *. eexists _, _. split; [done|]. split; [done|].
    destruct C as [(e' & -> & ->)|[-> ->]]; [by left|right; eauto].
  - eexists _, _. split; [done|]. split; [done|]. by left.
Qed.

Lemma retry_reliable m body b w :
  reliable w → marshal body = inl b →
  ∃ w', retry marshal s m body w
        = (Ret None, set_Attributes m (retry_attributes s m), w')
    ∧ reliable w' ∧ trace w' = trace w
    ∧ published w' = published w ++ [mkPublished (topicID s) b (retry_attributes s m)].
Proof.
  intros H M.
  unfold retry, retry_attributes, getRetries, PublishWihAttribrutes. simpl.
  rewrite M.
  match goal with |- context [Topic_Publish ?a ?b ?c ?d] =>
    destruct (Topic_Publish_reliable a b c d H) as (w2 & -> & H2 & P2 & T2) end.
  eauto 10.
Qed.

End Publishing.

(** ** Counting events *)

Lemma occurrences_app ev l1 l2 :
  occurrences ev (l1 ++ l2) = (occurrences ev l1 + occurrences ev l2)%nat.
Proof. unfold occurrences. by rewrite filter_app, length_app. Qed.

Lemma occurrences_cons_eq ev l : occurrences ev (ev :: l) = S (occurrences ev l).
Proof. unfold occurrences. by rewrite filter_cons_True. Qed.

Lemma occurrences_cons_ne ev e l :
  e ≠ ev → occurrences ev (e :: l) = occurrences ev l.
Proof. intros H. unfold occurrences. by rewrite filter_cons_False. Qed.

Lemma occurrences_nil ev : occurrences ev [] = 0%nat.
Proof. done. Qed.

Ltac count_events :=
  repeat first
    [ rewrite occurrences_app
    | rewrite occurrences_nil
    | rewrite occurrences_cons_eq
    | rewrite occurrences_cons_ne by done ].

Lemma occurrences_logs ev l :
  is_log ev = false → Forall (λ e, is_log e = true) l → occurrences ev l = 0%nat.
Proof.
  intros Hev. induction 1 as [|e l He _ IH]; [done|].
  rewrite occurrences_cons_ne; [done|]. intros ->. congruence.
Qed.

(** ** The callback when the handler returns an error *)

Section Classification.

Context {Body : Type}.
Variable marshal : Body → list Byte.byte + error.
Variable s : PubSubSubscriber Body.

Lemma classify_spec m body e w :
  ∃ m' w' logs,
    classify marshal s m body e w = (None, m', w')
    ∧ ID m' = ID m ∧ Data m' = Data m
    ∧ trace w' = trace w ++ logs ∧ Forall (λ ev, is_log ev = true) logs
    ∧ (published w' = published w
       ∨ (maxRetries s ≤ fst (getRetries s m)
          ∧ published w' = published w ++ [dead_letter s m e])
       ∨ (fst (getRetries s m) < maxRetries s
          ∧ ∃ b, marshal body = inl b
                 ∧ published w' = published w
                     ++ [mkPublished (topicID s) b (retry_attributes s m)])).
Proof.
  unfold classify.
  destruct (getRetries s m) as [n m0] eqn:G.
  pose proof (getRetries_message s m) as Gm. rewrite G in Gm. simpl in Gm. subst m0.
  assert (Hn' : n = fst (getRetries s m)) by (by rewrite G).
  simpl. case_bool_decide as Hn.
  - set (m0 := set_Attributes m _).
    pose proof (dlq_trace marshal s m0 e w) as T.
    pose proof (dlq_published marshal s m0 e w) as P.
    destruct (dlq marshal s m0 e w) as [err w1]. simpl in *.
    destruct err as [e'|].
    + eexists _, _, [_; _]. split; [done|]. simpl. rewrite T.
      rewrite <- app_assoc. repeat split; try done.
      * repeat constructor.
      * destruct P as [[_ ->]|[? _]]; [by left|done].
    + eexists _, _, [_]. split; [done|]. simpl. rewrite T.
      repeat split; try done.
      * repeat constructor.
      * destruct P as [[? _]|[_ ->]]; [done|]. right; left. split; [lia|done].
  - destruct (retry_returns marshal s m body w) as (err & w1 & E & T & P).
    assert (retry marshal s (set_Attributes m (default ∅ (Attributes m))) body w
            = retry marshal s m body w) as ->.
    { unfold retry, getRetries. simpl. done. }
    rewrite E.
    destruct err as [e'|].
    + eexists _, _, [_]. split; [done|]. simpl. rewrite T.
      repeat split; try done.
      * repeat constructor.
      * destruct P as [[_ ->]|(b & ? & _)]; [by left|done].
    + eexists _, _, []. split; [done|]. simpl. rewrite T, app_nil_r.
      repeat split; try done.
      destruct P as [[? _]|(b & _ & M & ->)]; [done|]. right; right.
      split; [lia|eauto].
Qed.

Lemma classify_reliable_dlq m body e w :
  reliable w → maxRetries s ≤ fst (getRetries s m) →
  ∃ m' w',
    classify marshal s m body e w = (None, m', w')
    ∧ ID m' = ID m ∧ Data m' = Data m ∧ reliable w'
    ∧ trace w' = trace w ++ [dlq_log s m]
    ∧ published w' = published w ++ [dead_letter s m e].
Proof.
  intros H Hn. unfold classify.
  destruct (getRetries s m) as [n m0] eqn:G.
  pose proof (getRetries_message s m) as Gm. rewrite G in Gm. simpl in Gm. subst m0.
  simpl in *. rewrite bool_decide_eq_true_2 by done.
  set (m0 := set_Attributes m _).
  destruct (dlq_reliable marshal s m0 e w H) as (w1 & -> & H1 & P1 & T1).
  eexists _, _. split; [done|]. done.
Qed.

Lemma classify_reliable_retry m body b e w :
  reliable w → fst (getRetries s m) < maxRetries s → marshal body = inl b →
  ∃ m' w',
    classify marshal s m body e w = (None, m', w')
    ∧ ID m' = ID m ∧ Data m' = Data m ∧ reliable w'
    ∧ trace w' = trace w
    ∧ published w' = published w
        ++ [mkPublished (topicID s) b (retry_attributes s m)].
Proof.
  intros H Hn M. unfold classify.
  destruct (getRetries s m) as [n m0] eqn:G.
  pose proof (getRetries_message s m) as Gm. rewrite G in Gm. simpl in Gm. subst m0.
  simpl in *. rewrite bool_decide_eq_false_2 by lia.
  assert (retry marshal s (set_Attributes m (default ∅ (Attributes m))) body w
          = retry marshal s m body w) as ->.
  { unfold retry, getRetries. simpl. done. }
  destruct (retry_reliable marshal s m body b w H M) as (w1 & -> & H1 & T1 & P1).
  eexists _, _. split; [done|]. done.
Qed.


(** The world in which [classify] starts once the handler has returned
    the error [e]. *)
Lemma guarded_handler_error m body e w :
  invoke s body = Ret (Some e) →
  ∃ m1 w1 logs,
    classify marshal s m body e
      (emit (handler_error_log m e)
         (emit (EvHandle (ID m)) (emit (processing_log m) w))) = (None, m1, w1)
    ∧ ID m1 = ID m ∧ Data m1 = Data m
    ∧ guarded marshal s m body w
      = (Some e, None, m1, Ack m (emit (sending_ack_log m) w1))
    ∧ trace w1 = trace w ++ [processing_log m; EvHandle (ID m); handler_error_log m e] ++ logs
    ∧ Forall (λ ev, is_log ev = true) logs.
Proof.
  intros Hinv. unfold guarded. rewrite Hinv.
  set (w0 := logf ErrorLevel _ _ _).
  destruct (classify_spec m body e w0) as (m1 & w1 & logs & E & Hid & Hdata & T & L & _).
  exists m1, w1, logs. change (emit (handler_error_log m e) _) with w0.
  rewrite E. repeat split; try done.
  - unfold Ack, sending_ack_log, logf. by rewrite Hid.
  - rewrite T. subst w0. simpl. by rewrite <- !app_assoc.
Qed.

Lemma callback_handler_error m body e w :
  decode s m = Ret (inl body) → invoke s body = Ret (Some e) →
  ∃ m1 w1,
    guarded marshal s m body w = (Some e, None, m1, w1)
    ∧ callback marshal s m w
      = (Ret (), m1, Ack m (snd (dlq marshal s m e (emit (panicked_log m e) w1)))).
Proof.
  intros Hdec Hinv. unfold callback. rewrite Hdec.
  destruct (guarded_handler_error m body e w Hinv)
    as (m1 & w1 & logs & _ & Hid & Hdata & -> & _).
  eexists _, _. split; [done|].
  unfold deferred, recover.
  assert (dlq marshal s m1 e
            (logf WarnLevel
               [("error", e); ("content", String.string_of_list_byte (Data m1))]
               ("consumer panicked with message " +:+ ID m1 +:+ " - sending to dlq")
               (Ack m (emit (sending_ack_log m) w1)))
          = dlq marshal s m e (emit (panicked_log m e) (Ack m (emit (sending_ack_log m) w1)))) as ->.
  { unfold dlq, panicked_log, logf. by rewrite Hid, Hdata. }
  destruct (dlq _ _ _ _ _) as [r w2]. simpl. unfold Ack. by rewrite Hid.
Qed.

End Classification.

Lemma string_length_app (a b : string) :
  String.length (a +:+ b) = (String.length a + String.length b)%nat.
Proof. induction a as [|c a IH]; simpl; [done|]. by rewrite IH. Qed.

Section HandlerErrors.

Context {Body : Type}.
Variable marshal : Body → list Byte.byte + error.
Variable s : PubSubSubscriber Body.

Lemma dlq_topic_distinct : topicID s +:+ "_dlq" ≠ topicID s.
Proof.
  intros H. apply (f_equal String.length) in H.
  rewrite string_length_app in H. simpl in H. lia.
Qed.

(** The trace of a delivery whose handler returns an error. *)
Lemma callback_handler_error_trace m body e w :
  decode s m = Ret (inl body) → invoke s body = Ret (Some e) →
  ∃ m1 w2 logs,
    callback marshal s m w = (Ret (), m1, w2)
    ∧ Forall (λ ev, is_log ev = true) logs
    ∧ trace w2 = trace w
        ++ [processing_log m; EvHandle (ID m); handler_error_log m e] ++ logs
        ++ [sending_ack_log m; EvAck (ID m)]
        ++ [panicked_log m e; dlq_log s m; EvAck (ID m)].
Proof.
  intros Hdec Hinv.
  destruct (callback_handler_error marshal s m body e w Hdec Hinv)
    as (m1 & w1 & G & ->).
  destruct (guarded_handler_error marshal s m body e w Hinv)
    as (m1' & w1' & logs & _ & _ & _ & G' & T & L).
  rewrite G in G'. injection G' as -> ->.
  eexists _, _, logs. split; [done|]. split; [done|].
  unfold Ack at 1. simpl. rewrite dlq_trace. simpl. rewrite T.
  by rewrite <- !app_assoc.
Qed.

Lemma callback_handler_error_counts m body e w :
  decode s m = Ret (inl body) → invoke s body = Ret (Some e) →
  ∃ m1 w2,
    callback marshal s m w = (Ret (), m1, w2)
    ∧ ack_count (ID m) w2 = (2 + ack_count (ID m) w)%nat
    ∧ handle_count (ID m) w2 = S (handle_count (ID m) w).
Proof.
  intros Hdec Hinv.
  destruct (callback_handler_error_trace m body e w Hdec Hinv)
    as (m1 & w2 & logs & E & L & T).
  exists m1, w2. split; [done|].
  unfold ack_count, handle_count. rewrite T.
  rewrite !occurrences_app, !(occurrences_logs _ logs) by done.
  split; count_events; lia.
Qed.


(** C1 (the code does otherwise).  When the payload deserializes and the
    handler panics, the panic does not leave the callback, but the message is
    neither dead-lettered nor acknowledged: the deferred function stops the
    panic with [recover()], drops its value, and tests the captured [err],
    which is still the [nil] that [json.Unmarshal] returned.  The callback
    adds two entries to the trace, publishes nothing and never calls [Ack]. *)
Theorem handler_panic_not_dead_lettered m body v w :
  decode s m = Ret (inl body) → invoke s body = Panic v →
  ∃ w', callback marshal s m w = (Ret (), m, w')
    ∧ trace w' = trace w ++ [processing_log m; EvHandle (ID m)]
    ∧ published w' = published w
    ∧ ack_count (ID m) w' = ack_count (ID m) w.
Proof.
  intros Hdec Hinv. unfold callback, guarded, deferred, recover.
  rewrite Hdec, Hinv. eexists. split; [done|]. simpl.
  rewrite <- app_assoc. repeat split; try done.
  unfold ack_count. simpl. rewrite <- app_assoc. by count_events.
Qed.

(** C2 (the code does otherwise).  When the handler returns an error, the
    retry count is below the maximum, the body serializes and the service
    answers every call, the callback publishes two messages, not one: the
    retry on the same topic, with the attribute map of [retry], and then the
    dead-letter message that the deferred function sends because [err] is not
    [nil].  [Ack] is called twice. *)
Theorem retry_also_dead_letters m body b e w :
  decode s m = Ret (inl body) → invoke s body = Ret (Some e) →
  marshal body = inl b → fst (getRetries s m) < maxRetries s → reliable w →
  ∃ m' w', callback marshal s m w = (Ret (), m', w')
    ∧ published w' = published w
        ++ [mkPublished (topicID s) b (retry_attributes s m); dead_letter s m e]
    ∧ ack_count (ID m) w' = (2 + ack_count (ID m) w)%nat.
Proof.
  intros Hdec Hinv M Hn H.
  destruct (callback_handler_error_counts m body e w Hdec Hinv)
    as (m' & w' & E & A & _).
  exists m', w'. split; [done|]. split; [|done].
  destruct (callback_handler_error marshal s m body e w Hdec Hinv)
    as (m1 & w1 & G & E').
  rewrite E in E'. injection E' as -> ->.
  destruct (guarded_handler_error marshal s m body e w Hinv)
    as (m1' & w1' & logs & C & _ & _ & G' & _ & _).
  rewrite G in G'. injection G' as -> ->.
  set (w0 := emit (handler_error_log m e) _) in C.
  destruct (classify_reliable_retry marshal s m body b e w0 H Hn M)
    as (m2 & w2 & C' & _ & _ & H2 & _ & P2).
  rewrite C in C'. injection C' as -> ->.
  set (w3 := emit (panicked_log m e) _).
  assert (H3 : reliable w3) by done.
  destruct (dlq_reliable marshal s m e w3 H3) as (w4 & -> & _ & P4 & _).
  simpl. rewrite P4. subst w3. simpl. rewrite P2. subst w0. simpl.
  by rewrite <- app_assoc.
Qed.

(** C3 (the code does otherwise).  When the handler returns an error, the
    retry count has reached the maximum and the service answers every call,
    the callback publishes the dead-letter message twice, once from the
    [switch] and once from the deferred function.  Nothing goes to the
    original topic. *)
Theorem exhausted_dead_letters_twice m body e w :
  decode s m = Ret (inl body) → invoke s body = Ret (Some e) →
  maxRetries s ≤ fst (getRetries s m) → reliable w →
  ∃ m' w', callback marshal s m w = (Ret (), m', w')
    ∧ published w' = published w ++ [dead_letter s m e; dead_letter s m e]
    ∧ ack_count (ID m) w' = (2 + ack_count (ID m) w)%nat.
Proof.
  intros Hdec Hinv Hn H.
  destruct (callback_handler_error_counts m body e w Hdec Hinv)
    as (m' & w' & E & A & _).
  exists m', w'. split; [done|]. split; [|done].
  destruct (callback_handler_error marshal s m body e w Hdec Hinv)
    as (m1 & w1 & G & E').
  rewrite E in E'. injection E' as -> ->.
  destruct (guarded_handler_error marshal s m body e w Hinv)
    as (m1' & w1' & logs & C & _ & _ & G' & _ & _).
  rewrite G in G'. injection G' as -> ->.
  set (w0 := emit (handler_error_log m e) _) in C.
  destruct (classify_reliable_dlq marshal s m body e w0 H Hn)
    as (m2 & w2 & C' & _ & _ & H2 & _ & P2).
  rewrite C in C'. injection C' as -> ->.
  set (w3 := emit (panicked_log m e) _).
  assert (H3 : reliable w3) by done.
  destruct (dlq_reliable marshal s m e w3 H3) as (w4 & -> & _ & P4 & _).
  simpl. rewrite P4. subst w3. simpl. rewrite P2. subst w0. simpl.
  by rewrite <- app_assoc.
Qed.

(** C4.  When the payload deserializes and the handler returns a non-nil
    error, the main path ends with [Ack] and leaves [err] set and no panic in
    flight, so [recover()] has nothing to return; the deferred function then
    logs, calls [dlq] on the original payload and calls [Ack] again.  The
    callback adds exactly the three entries of the deferred function after
    the main path, [Ack] has been called twice in all, and the dead-letter
    message of the deferred function comes on top of what the main path has
    published (always so when the service answers its calls). *)
Theorem handler_error_dead_lettered_again m body e w :
  decode s m = Ret (inl body) → invoke s body = Ret (Some e) →
  ∃ m1 w1 w2,
    guarded marshal s m body w = (Some e, None, m1, w1)
    ∧ (∃ t, trace w1 = t ++ [EvAck (ID m)])
    ∧ callback marshal s m w = (Ret (), m1, w2)
    ∧ trace w2 = trace w1 ++ [panicked_log m e; dlq_log s m; EvAck (ID m)]
    ∧ ack_count (ID m) w2 = (2 + ack_count (ID m) w)%nat
    ∧ (published w2 = published w1
       ∨ published w2 = published w1 ++ [dead_letter s m e])
    ∧ (reliable w1 → published w2 = published w1 ++ [dead_letter s m e]).
Proof.
  intros Hdec Hinv.
  destruct (callback_handler_error_counts m body e w Hdec Hinv)
    as (m' & w' & E & A & _).
  destruct (callback_handler_error marshal s m body e w Hdec Hinv)
    as (m1 & w1 & G & E').
  rewrite E in E'. injection E' as -> ->.
  destruct (guarded_handler_error marshal s m body e w Hinv)
    as (m1' & w1' & logs & _ & _ & _ & G' & _ & _).
  exists m1, w1, (Ack m (snd (dlq marshal s m e (emit (panicked_log m e) w1)))).
  split; [done|]. split.
  { rewrite G in G'. injection G' as _ ->. eexists. done. }
  split; [done|]. split.
  { simpl. rewrite dlq_trace. simpl. by rewrite <- !app_assoc. }
  split; [done|]. split.
  - destruct (dlq_published marshal s m e (emit (panicked_log m e) w1))
      as [[_ P]|[_ P]]; simpl; rewrite P; [by left|by right].
  - intros H1.
    destruct (dlq_reliable marshal s m e (emit (panicked_log m e) w1) H1)
      as (w4 & -> & _ & P4 & _).
    done.
Qed.

(** C5.  When the payload does not deserialize, the callback logs, calls
    [dlq] with the parse error and calls [Ack] once; the handler is not
    invoked; the only message it can publish is the dead-letter one, which
    carries the raw payload and the parse error as its ["error"] attribute
    and goes to the dead-letter topic, never to the original one; and it is
    published whenever the service answers its calls. *)
Theorem unmarshal_failure_dead_lettered m e w :
  decode s m = Ret (inr e) →
  ∃ w', callback marshal s m w = (Ret (), m, w')
    ∧ trace w' = trace w ++ [unmarshal_error_log m e; dlq_log s m; EvAck (ID m)]
    ∧ ack_count (ID m) w' = S (ack_count (ID m) w)
    ∧ handle_count (ID m) w' = handle_count (ID m) w
    ∧ (published w' = published w
       ∨ published w' = published w ++ [dead_letter s m e])
    ∧ (reliable w → published w' = published w ++ [dead_letter s m e]).
Proof.
  intros Hdec. unfold callback. rewrite Hdec.
  set (w0 := logf ErrorLevel _ _ w).
  pose proof (dlq_trace marshal s m e w0) as T.
  pose proof (dlq_published marshal s m e w0) as P.
  pose proof (dlq_reliable marshal s m e w0) as R.
  destruct (dlq marshal s m e w0) as [r w1]. simpl in *.
  eexists. split; [done|]. simpl. rewrite T, <- !app_assoc. simpl.
  split; [done|]. unfold ack_count, handle_count. simpl.
  rewrite T, <- !app_assoc. simpl.
  split; [count_events; lia|]. split; [count_events; lia|]. split.
  - destruct P as [[_ ->]|[_ ->]]; [by left|by right].
  - intros H. destruct (R H) as (w4 & [= -> ->] & _ & P4 & _). done.
Qed.

End HandlerErrors.

(** ** Provisioning and startup *)

Section Provisioning.

Lemma createSubscriptionIfNotExists_existing subID topic dl w :
  subID ∈ dom (subscriptions w) → fst (take_fault w) = None →
  createSubscriptionIfNotExists subID topic dl w
  = ((Some (mkSubscription subID DefaultMaxOutstandingMessages), None),
     snd (take_fault w)).
Proof.
  intros Hin Hf. unfold createSubscriptionIfNotExists, Subscription_Exists.
  pose proof (take_fault_rest w) as (_ & S & _ & _).
  destruct (take_fault w) as [f w1]. simpl in *. subst f. simpl.
  by rewrite S, bool_decide_eq_true_2.
Qed.

Lemma createSubscriptionIfNotExists_ok subID topic dl w r w1 :
  createSubscriptionIfNotExists subID topic dl w = ((Some r, None), w1) →
  r = mkSubscription subID DefaultMaxOutstandingMessages
  ∧ subID ∈ dom (subscriptions w1).
Proof.
  unfold createSubscriptionIfNotExists, Subscription_Exists.
  pose proof (take_fault_rest w) as (_ & S & _ & _).
  destruct (take_fault w) as [f w0]. simpl in *.
  destruct f as [e|]; simpl; [done|].
  case_bool_decide as Hin; simpl.
  { by intros [= <- <-]. }
  destruct (createTopicIfNotExists topic w0) as [[t err] w2].
  destruct err as [e|]; [done|].
  unfold CreateSubscription.
  destruct (take_fault w2) as [f w3]. destruct f as [e|]; simpl; [done|].
  case_bool_decide; simpl; [done|].
  intros [= <- <-]. simpl. split; [done|]. set_solver.
Qed.

(** An error of [createSubscriptionIfNotExists] that does not come from
    the existence check of the subscription comes with a [nil]
    subscription. *)
Lemma createSubscriptionIfNotExists_creation_error subID topic dl w r e w1 :
  createSubscriptionIfNotExists subID topic dl w = ((r, Some e), w1) →
  snd (fst (Subscription_Exists subID w)) = None →
  r = None.
Proof.
  unfold createSubscriptionIfNotExists.
  destruct (Subscription_Exists subID w) as [[ex err] w0]. simpl.
  intros H ->. simpl in H. destruct ex; simpl in H; [done|].
  destruct (createTopicIfNotExists topic w0) as [[t err] w2].
  destruct err as [e'|]; [by injection H|].
  destruct (CreateSubscription _ _ w2) as [[r' err] w3].
  destruct err as [e'|]; [by injection H|]. done.
Qed.

Lemma createSubscriptionIfNotExists_check_error subID topic dl w e :
  snd (fst (Subscription_Exists subID w)) = Some e →
  createSubscriptionIfNotExists subID topic dl w
  = ((Some (mkSubscription subID DefaultMaxOutstandingMessages), Some e),
     snd (take_fault w)).
Proof.
  unfold createSubscriptionIfNotExists, Subscription_Exists.
  destruct (take_fault w) as [f w0]. destruct f as [e'|]; simpl; [|done].
  by intros [= ->].
Qed.

(** C9.  Once [createSubscriptionIfNotExists] has returned a subscription
    without an error, a second call with the same identifiers, whose
    existence check the service answers, returns that subscription without
    an error and creates nothing: topics and subscriptions are as they were,
    and nothing is logged or published. *)
Theorem provisioning_idempotent subID topic dl w r w1 :
  createSubscriptionIfNotExists subID topic dl w = ((Some r, None), w1) →
  fst (take_fault w1) = None →
  ∃ w2, createSubscriptionIfNotExists subID topic dl w1 = ((Some r, None), w2)
    ∧ topics w2 = topics w1 ∧ subscriptions w2 = subscriptions w1
    ∧ published w2 = published w1 ∧ trace w2 = trace w1.
Proof.
  intros H1 Hf.
  destruct (createSubscriptionIfNotExists_ok _ _ _ _ _ _ H1) as [-> Hin].
  exists (snd (take_fault w1)). split.
  - by apply createSubscriptionIfNotExists_existing.
  - apply take_fault_rest.
Qed.

End Provisioning.

Section Startup.

Context {Body : Type}.
Variable marshal : Body → list Byte.byte + error.
Variable s : PubSubSubscriber Body.

(** C6 (the code does otherwise).  When provisioning fails after the
    existence check of the subscription has been answered, that is on the
    existence check or the creation of the topic, or on the creation of the
    subscription, [createSubscriptionIfNotExists] returns a [nil]
    subscription, and [Run] panics on
    [subscriber.ReceiveSettings.MaxOutstandingMessages = ...] before it looks
    at [err]: the error is not returned. *)
Theorem Run_creation_error_panics deliveries w r e w1 :
  createSubscriptionIfNotExists (subscriberID s) (topicID s) (ackDeadline s) w
  = ((r, Some e), w1) →
  snd (fst (Subscription_Exists (subscriberID s) w)) = None →
  Run marshal s deliveries w = (Panic nil_dereference, w1).
Proof.
  intros H Hex. unfold Run. rewrite H.
  by rewrite (createSubscriptionIfNotExists_creation_error _ _ _ _ _ _ _ H Hex).
Qed.

(** An error of the existence check of the subscription is logged and
    returned; the receive loop is not entered. *)
Lemma Run_check_error_returned deliveries w e :
  snd (fst (Subscription_Exists (subscriberID s) w)) = Some e →
  Run marshal s deliveries w
  = (Ret (Some e),
     logf ErrorLevel [("error", e)] ("error starting " +:+ subscriberID s)
       (snd (take_fault w))).
Proof.
  intros H. unfold Run.
  by rewrite (createSubscriptionIfNotExists_check_error _ _ _ _ _ H).
Qed.

End Startup.

(** ** Every delivery *)

Section Deliveries.

Context {Body : Type}.
Variable marshal : Body → list Byte.byte + error.
Variable s : PubSubSubscriber Body.

Lemma callback_handler_ok m body w :
  decode s m = Ret (inl body) → invoke s body = Ret None →
  callback marshal s m w
  = (Ret (), m,
     Ack m (emit (sending_ack_log m)
              (emit (EvHandle (ID m)) (emit (processing_log m) w)))).
Proof.
  intros Hdec Hinv. unfold callback, guarded, deferred, recover.
  by rewrite Hdec, Hinv.
Qed.

Lemma callback_handler_panic m body v w :
  decode s m = Ret (inl body) → invoke s body = Panic v →
  callback marshal s m w
  = (Ret (), m, emit (EvHandle (ID m)) (emit (processing_log m) w)).
Proof.
  intros Hdec Hinv. unfold callback, guarded, deferred, recover.
  by rewrite Hdec, Hinv.
Qed.

(** Once the payload has been deserialized the callback returns: no panic
    leaves it. *)
Lemma callback_returns m body w :
  decode s m = Ret (inl body) →
  ∃ m' w', callback marshal s m w = (Ret (), m', w')
    ∧ handle_count (ID m) w' = S (handle_count (ID m) w).
Proof.
  intros Hdec. destruct (invoke s body) as [[e|]|v] eqn:Hinv.
  - destruct (callback_handler_error_counts marshal s m body e w Hdec Hinv)
      as (m' & w' & E & _ & Hc).
    eauto.
  - rewrite (callback_handler_ok m body w Hdec Hinv). eexists _, _.
    split; [done|]. unfold handle_count. simpl.
    rewrite <- !app_assoc. count_events. lia.
  - rewrite (callback_handler_panic m body v w Hdec Hinv). eexists _, _.
    split; [done|]. unfold handle_count. simpl.
    rewrite <- !app_assoc. count_events. lia.
Qed.

(** No panic leaves the callback of a subscriber that has a payload type. *)
Lemma callback_never_panics m w :
  is_Some (handleType s) →
  ∃ m' w', callback marshal s m w = (Ret (), m', w').
Proof.
  intros [unmarshal Ht].
  destruct (unmarshal (Data m)) as [body|e] eqn:U.
  - destruct (callback_returns m body w) as (m' & w' & E & _); [|by eauto].
    unfold decode. by rewrite Ht, U.
  - unfold callback, decode. rewrite Ht, U.
    destruct (dlq _ _ _ _ _). by eauto.
Qed.

(** C7, amended.  Every delivered message that deserializes is handed to
    the handler once, whatever its retry count.  When the handler returns an
    error and the retry count has reached the maximum, every message the
    callback publishes is the dead-letter message (none is a retry on the
    original topic), and at least one is published when the service answers
    its calls. *)
Theorem handler_invoked_then_exhausted_dead_lettered m body w :
  decode s m = Ret (inl body) →
  ∃ m' w', callback marshal s m w = (Ret (), m', w')
    ∧ handle_count (ID m) w' = S (handle_count (ID m) w)
    ∧ ∀ e, invoke s body = Ret (Some e) →
           maxRetries s ≤ fst (getRetries s m) →
           ∃ new, published w' = published w ++ new
                  ∧ Forall (λ p, p = dead_letter s m e) new
                  ∧ (reliable w → new ≠ []).
Proof.
  intros Hdec.
  destruct (callback_returns m body w Hdec) as (m' & w' & E & Hc).
  exists m', w'. split; [done|]. split; [done|].
  intros e Hinv Hn.
  destruct (callback_handler_error marshal s m body e w Hdec Hinv)
    as (m1 & w1 & G & E').
  rewrite E in E'. injection E' as -> ->.
  destruct (guarded_handler_error marshal s m body e w Hinv)
    as (m1' & w1' & logs & C & _ & _ & G' & _ & _).
  rewrite G in G'. injection G' as -> ->.
  set (w0 := emit (handler_error_log m e) _) in C.
  set (w3 := emit (panicked_log m e) _).
  assert (∃ second, published (Ack m (snd (dlq marshal s m e w3)))
                    = published w1' ++ second
                    ∧ Forall (λ p, p = dead_letter s m e) second)
    as (second & P2 & F2).
  { destruct (dlq_published marshal s m e w3) as [[_ P]|[_ P]]; simpl; rewrite P.
    - exists []. by rewrite app_nil_r.
    - exists [dead_letter s m e]. split; [done|]. by repeat constructor. }
  assert (∃ first, published w1' = published w ++ first
                   ∧ Forall (λ p, p = dead_letter s m e) first
                   ∧ (reliable w → first ≠ []))
    as (first & P1 & F1 & N1).
  { destruct (classify_spec marshal s m body e w0)
      as (m2 & w2 & logs2 & C' & _ & _ & _ & _ & P).
    rewrite C in C'. injection C' as <- <-.
    destruct P as [P|[[_ P]|[? _]]]; [| |lia].
    - exists []. rewrite app_nil_r. split; [done|]. split; [done|].
      intros H.
      destruct (classify_reliable_dlq marshal s m body e w0 H Hn)
        as (m3 & w4 & C' & _ & _ & _ & _ & P').
      rewrite C in C'. injection C' as <- <-.
      rewrite P in P'. simpl in P'.
      apply (f_equal length) in P'. rewrite length_app in P'. simpl in P'. lia.
    - exists [dead_letter s m e]. split; [done|]. split; [by repeat constructor|].
      done. }
  exists (first ++ second). rewrite P2, P1, <- app_assoc.
  split; [done|]. split; [by apply Forall_app|].
  intros H Hnil. apply app_eq_nil in Hnil as [Hnil _]. by apply N1.
Qed.

(** C10.  When the handler returns an error, the callback returns and
    [Ack] has been called, whatever the service answers.  If the dead-letter
    publish of the [switch] fails, or the retry publish does, the failure is
    logged and the next things the callback does are the ack log and [Ack],
    followed by the deferred function. *)
Theorem publish_failure_logged_and_acked m body e w :
  decode s m = Ret (inl body) → invoke s body = Ret (Some e) →
  let w0 := emit (handler_error_log m e)
              (emit (EvHandle (ID m)) (emit (processing_log m) w)) in
  let m0 := snd (getRetries s m) in
  ∃ m1 w2,
    callback marshal s m w = (Ret (), m1, w2)
    ∧ ack_count (ID m) w2 = (2 + ack_count (ID m) w)%nat
    ∧ (∀ e' w1,
         maxRetries s ≤ fst (getRetries s m) →
         dlq marshal s m0 e w0 = (Some e', w1) →
         trace w2 = trace w1
           ++ [dlq_error_log m e'; sending_ack_log m; EvAck (ID m)]
           ++ [panicked_log m e; dlq_log s m; EvAck (ID m)])
    ∧ (∀ e' m' w1,
         fst (getRetries s m) < maxRetries s →
         retry marshal s m0 body w0 = (Ret (Some e'), m', w1) →
         trace w2 = trace w1
           ++ [retry_error_log m e'; sending_ack_log m; EvAck (ID m)]
           ++ [panicked_log m e; dlq_log s m; EvAck (ID m)]).
Proof.
  intros Hdec Hinv w0 m0.
  destruct (callback_handler_error_counts marshal s m body e w Hdec Hinv)
    as (m' & w' & E & A & _).
  exists m', w'. split; [done|]. split; [done|].
  destruct (callback_handler_error marshal s m body e w Hdec Hinv)
    as (m1 & w1 & G & E').
  rewrite E in E'. injection E' as -> ->.
  destruct (guarded_handler_error marshal s m body e w Hinv)
    as (m1' & w1' & logs & C & _ & _ & G' & _ & _).
  rewrite G in G'. injection G' as -> ->.
  fold w0 in C. unfold classify in C.
  destruct (getRetries s m) as [n mr] eqn:Gr. subst m0. simpl in *.
  split.
  - intros e' w1 Hn D. rewrite bool_decide_eq_true_2 in C by done.
    rewrite D in C. injection C as <- <-.
    rewrite dlq_trace. simpl.
    pose proof (getRetries_message s m) as Gm. rewrite Gr in Gm. simpl in Gm.
    subst mr. unfold dlq_error_log. simpl. by rewrite <- !app_assoc.
  - intros e' m' w1 Hn R. rewrite bool_decide_eq_false_2 in C by lia.
    rewrite R in C. injection C as <- <-.
    rewrite dlq_trace. simpl.
    destruct (retry_returns marshal s mr body w0) as (? & ? & R' & _).
    rewrite R in R'. injection R' as _ -> _.
    unfold retry_error_log. simpl.
    pose proof (getRetries_message s m) as Gm. rewrite Gr in Gm. simpl in Gm.
    subst mr. simpl. by rewrite <- !app_assoc.
Qed.

End Deliveries.

(** ** strconv *)

Lemma Atoi_syntax_zero v :
  snd (strconv.Atoi v) = Some strconv.ErrSyntax → fst (strconv.Atoi v) = 0.
Proof.
  unfold strconv.Atoi, strconv.ParseInt.
  repeat case_match; simpl; congruence.
Qed.

Lemma Atoi_range_saturates v :
  snd (strconv.Atoi v) = Some strconv.ErrRange →
  fst (strconv.Atoi v) = strconv.maxInt ∨ fst (strconv.Atoi v) = strconv.minInt.
Proof.
  unfold strconv.Atoi, strconv.ParseInt.
  repeat case_match; simpl; try congruence; intros _; (by left) || (by right).
Qed.

Lemma code_range c : 0 ≤ strconv.code c < 256.
Proof.
  unfold strconv.code. pose proof (N_ascii_bounded c). lia.
Qed.

Lemma Atoi_digits_malformed s n :
  all_digits s = false → strconv.Atoi_digits s n = None.
Proof.
  revert n. induction s as [|c s IH]; intros n; simpl; [done|].
  unfold is_digit. pose proof (code_range c).
  case_bool_decide as Hd; simpl.
  - intros Hs. rewrite bool_decide_eq_false_2.
    + by apply IH.
    + rewrite Z.mod_small by lia. lia.
  - intros _. rewrite bool_decide_eq_true_2; [done|].
    destruct (decide (strconv.code c < 48)).
    + replace ((strconv.code c - 48) `mod` 256) with (strconv.code c - 48 + 256).
      * lia.
      * apply Z.mod_unique with (q := -1); lia.
    + rewrite Z.mod_small by lia. lia.
Qed.

(** Below 19 bytes [Atoi] answers a syntax error, and 0, to whatever is not
    an optionally signed run of digits. *)
Lemma Atoi_malformed v :
  is_decimal_integer v = false → (String.length v < 19)%nat →
  strconv.Atoi v = (0, Some strconv.ErrSyntax).
Proof.
  intros Hd Hlen. unfold strconv.Atoi.
  destruct v as [|c rest]; [done|].
  change (String.length (String c rest)) with (S (String.length rest)) in *.
  assert (0 < Z.of_nat (S (String.length rest)) < 19) as HH by (clear -Hlen; lia).
  rewrite (bool_decide_eq_true_2 _ HH).
  unfold is_decimal_integer in Hd.
  case_bool_decide as Hs.
  - rewrite (bool_decide_eq_true_2 (c = "-"%char ∨ _)) by tauto. cbn [andb].
    destruct rest as [|c' rest]; [done|].
    rewrite (bool_decide_eq_false_2 (_ < 1)%nat) by (simpl; lia).
    by rewrite (Atoi_digits_malformed _ _ Hd).
  - rewrite (bool_decide_eq_false_2 (c = "-"%char ∨ _)) by tauto. cbn [andb].
    by rewrite (Atoi_digits_malformed _ _ Hd).
Qed.

Lemma code_pretty_N_char (d : N) :
  (d < 10)%N → strconv.code (pretty_N_char d) = 48 + Z.of_N d.
Proof.
  intros H. destruct d as [|p]; [done|].
  do 4 (try destruct p as [p|p|]); try lia; reflexivity.
Qed.

Lemma Atoi_digits_pretty_N_go (x : N) s :
  strconv.Atoi_digits (pretty_N_go x s) 0 = strconv.Atoi_digits s (Z.of_N x).
Proof.
  revert s. induction (N.lt_wf_0 x) as [x _ IH]. intros s.
  destruct (decide (x = 0)%N) as [->|Hx]; [by rewrite pretty_N_go_0|].
  rewrite pretty_N_go_step by lia.
  rewrite IH by (apply N.div_lt; lia).
  cbn [strconv.Atoi_digits].
  rewrite code_pretty_N_char by (apply N.mod_lt; lia).
  replace (48 + Z.of_N (x `mod` 10) - 48) with (Z.of_N (x `mod` 10)) by lia.
  pose proof (N.mod_lt x 10 ltac:(lia)).
  pose proof (N.div_mod x 10 ltac:(lia)) as Hdm.
  set (d := (x `mod` 10)%N) in *. set (q := (x `div` 10)%N) in *.
  rewrite Z.mod_small by lia.
  rewrite bool_decide_eq_false_2 by lia.
  f_equal. lia.
Qed.

Lemma ParseUint_digits_pretty_N_go (x : N) s :
  Z.of_N x ≤ strconv.maxUint64 →
  strconv.ParseUint_digits (pretty_N_go x s) 0
  = strconv.ParseUint_digits s (Z.of_N x).
Proof.
  revert s. induction (N.lt_wf_0 x) as [x _ IH]. intros s Hmax.
  destruct (decide (x = 0)%N) as [->|Hx]; [by rewrite pretty_N_go_0|].
  rewrite pretty_N_go_step by lia.
  pose proof (N.div_mod x 10 ltac:(lia)) as Hdm.
  pose proof (N.mod_lt x 10 ltac:(lia)) as Hd.
  assert (Hq : (x `div` 10 < x)%N) by (apply N.div_lt; lia).
  unfold strconv.maxUint64 in *.
  rewrite IH by (done || lia).
  cbn [strconv.ParseUint_digits].
  rewrite code_pretty_N_char by done.
  set (d := (x `mod` 10)%N) in *. set (q := (x `div` 10)%N) in *.
  rewrite (bool_decide_eq_true_2 (48 ≤ _ ≤ 57)) by lia.
  unfold strconv.maxUint64.
  change ((2 ^ 64 - 1) `div` 10 + 1) with 1844674407370955162.
  rewrite (bool_decide_eq_false_2 (1844674407370955162 ≤ _)) by lia.
  cbn zeta.
  replace (Z.of_N q * 10 + (48 + Z.of_N d - 48)) with (Z.of_N x) by lia.
  rewrite Z.mod_small by lia.
  rewrite bool_decide_eq_false_2 by lia.
  done.
Qed.

Lemma is_digit_not_sign c :
  is_digit c = true → c ≠ "+"%char ∧ c ≠ "-"%char.
Proof.
  unfold is_digit. intros H. apply bool_decide_eq_true in H.
  split; intros ->; vm_compute in H; destruct H as [H1 H2]; by apply H1.
Qed.

Lemma pretty_N_go_head (x : N) s :
  (0 < x)%N → ∃ c rest, pretty_N_go x s = String c rest ∧ is_digit c = true.
Proof.
  revert s. induction (N.lt_wf_0 x) as [x _ IH]. intros s Hx.
  rewrite pretty_N_go_step by done.
  destruct (decide (x `div` 10 = 0)%N) as [->|Hq].
  - rewrite pretty_N_go_0. eexists _, _. split; [done|].
    unfold is_digit. rewrite code_pretty_N_char by (apply N.mod_lt; lia).
    pose proof (N.mod_lt x 10 ltac:(lia)).
    set (d := (x `mod` 10)%N) in *. apply bool_decide_eq_true. lia.
  - apply IH; [apply N.div_lt; lia|]. set (q := (x `div` 10)%N) in *. lia.
Qed.

(** [Atoi] reads back what [Itoa] writes. *)
Lemma Atoi_Itoa z :
  strconv.minInt ≤ z ≤ strconv.maxInt →
  strconv.Atoi (strconv.Itoa z) = (z, None).
Proof.
  unfold strconv.minInt, strconv.maxInt, strconv.Itoa. intros Hz.
  destruct z as [|p|p]; [done| |].
  - change (pretty (Z.pos p)) with (pretty_N_go (N.pos p) "").
    destruct (pretty_N_go_head (N.pos p) "" ltac:(lia)) as (c & rest & E & Hc).
    destruct (is_digit_not_sign c Hc) as [Hplus Hminus].
    pose proof (Atoi_digits_pretty_N_go (N.pos p) "") as Hfast.
    pose proof (ParseUint_digits_pretty_N_go (N.pos p) "") as Hslow.
    rewrite E in Hfast, Hslow. 
    unfold strconv.Atoi, strconv.ParseInt, strconv.ParseUint. rewrite E.
    rewrite !(bool_decide_eq_false_2 (c = "-"%char)) by done.
    rewrite (bool_decide_eq_false_2 (c = "-"%char ∨ _)) by tauto.
    rewrite (bool_decide_eq_false_2 (c = "+"%char ∨ _)) by tauto.
    cbn [andb negb]. rewrite Hfast.
    rewrite Hslow by (unfold strconv.maxUint64; lia).
    cbn [strconv.Atoi_digits strconv.ParseUint_digits].
    case_bool_decide; [done|].
    unfold strconv.intSize. rewrite bool_decide_eq_false_2 by lia. done.
  - change (pretty (Z.neg p)) with (String "-" (pretty_N_go (N.pos p) "")).
    destruct (pretty_N_go_head (N.pos p) "" ltac:(lia)) as (c & rest & E & Hc).
    pose proof (Atoi_digits_pretty_N_go (N.pos p) "") as Hfast.
    pose proof (ParseUint_digits_pretty_N_go (N.pos p) "") as Hslow.
    unfold strconv.Atoi, strconv.ParseInt, strconv.ParseUint.
    rewrite !(bool_decide_eq_true_2 ("-"%char = "-"%char)) by done.
    rewrite (bool_decide_eq_true_2 ("-"%char = "-"%char ∨ _)) by tauto.
    rewrite (bool_decide_eq_true_2 (_ ∨ "-"%char = "-"%char)) by tauto.
    cbn [andb negb]. rewrite Hfast.
    rewrite (bool_decide_eq_false_2 (_ < 1)%nat) by (rewrite E; simpl; lia).
    cbn [strconv.Atoi_digits].
    case_bool_decide; [done|].
    rewrite E, <- E. rewrite Hslow by (unfold strconv.maxUint64; lia).
    cbn [strconv.ParseUint_digits].
    unfold strconv.intSize. rewrite bool_decide_eq_false_2 by lia. done.
Qed.

Lemma Atoi_digits_bounds s n r :
  0 ≤ n → strconv.Atoi_digits s n = Some r →
  n * 10 ^ Z.of_nat (String.length s) ≤ r
  < (n + 1) * 10 ^ Z.of_nat (String.length s).
Proof.
  revert n. induction s as [|c s IH]; intros n Hn.
  - simpl. intros [= ->]. lia.
  - cbn [strconv.Atoi_digits String.length].
    case_bool_decide as Hch; [done|]. intros Hr.
    pose proof (Z.mod_pos_bound (strconv.code c - 48) 256 ltac:(lia)) as Hb.
    set (ch := (strconv.code c - 48) `mod` 256) in *.
    apply IH in Hr; [|lia].
    rewrite Nat2Z.inj_succ, Z.pow_succ_r by lia.
    assert (0 < 10 ^ Z.of_nat (String.length s)) by (apply Z.pow_pos_nonneg; lia).
    nia.
Qed.

Lemma ParseUint_digits_nonneg s n :
  0 ≤ n → 0 ≤ fst (strconv.ParseUint_digits s n).
Proof.
  revert n. induction s as [|c s IH]; intros n Hn; [done|].
  cbn [strconv.ParseUint_digits]. repeat case_bool_decide; try done.
  apply IH. apply Z.mod_pos_bound. lia.
Qed.

(** [Atoi] returns an [int], also when it fails. *)
Lemma Atoi_int_range v :
  strconv.minInt ≤ fst (strconv.Atoi v) ≤ strconv.maxInt.
Proof.
  unfold strconv.minInt, strconv.maxInt, strconv.Atoi.
  case_bool_decide as Hlen.
  - destruct v as [|c rest]; [done|].
    set (s' := if bool_decide (c = "-"%char ∨ c = "+"%char) then rest
               else String c rest).
    assert (Hs' : Z.of_nat (String.length s') ≤ 18).
    { subst s'. case_bool_decide; cbn [String.length] in *; lia. }
    destruct (_ && _); [done|].
    destruct (strconv.Atoi_digits s' 0) as [r|] eqn:Hr; [|done].
    apply Atoi_digits_bounds in Hr; [|done].
    assert (10 ^ Z.of_nat (String.length s') ≤ 10 ^ 18)
      by (apply Z.pow_le_mono_r; lia).
    case_bool_decide; simpl; lia.
  - unfold strconv.ParseInt, strconv.ParseUint, strconv.intSize.
    destruct v as [|c rest]; [done|].
    set (s' := if bool_decide (c = "+"%char ∨ c = "-"%char) then rest
               else String c rest).
    assert (Hun : 0 ≤ fst (match s' with
                           | EmptyString => (0, Some strconv.ErrSyntax)
                           | String _ _ => strconv.ParseUint_digits s' 0
                           end)).
    { destruct s'; [done|]. by apply ParseUint_digits_nonneg. }
    destruct (match s' with EmptyString => _ | String _ _ => _ end)
      as [un [[]|]]; simpl in *; try done;
      destruct (bool_decide (c = "-"%char)); simpl;
      repeat case_bool_decide; simpl; lia.
Qed.

(** ** The retry count *)

Section Retries.

Context {Body : Type}.

Lemma getRetries_lookup (s : PubSubSubscriber Body) m :
  maxRetriesAttribute s = "retries" →
  fst (getRetries s m)
  = match retries_attribute m with
    | Some v => fst (strconv.Atoi v)
    | None => 0
    end.
Proof.
  intros Hk. unfold getRetries, retries_attribute. simpl. rewrite Hk.
  destruct (Attributes m) as [a|]; simpl; [done|]. by rewrite lookup_empty.
Qed.

(** C8, amended.  [getRetries] has no error result and cannot fault.  It
    returns 0 when the ["retries"] attribute is missing, and when
    [strconv.Atoi] rejects its value with a syntax error, as it does every
    value shorter than 19 bytes that is not an optionally signed run of
    digits.  When [strconv.Atoi] rejects the value as out of range, the
    result is the largest or the smallest [int]. *)
Theorem getRetries_missing_or_malformed (opts : list (@PubSubSubscriberOption Body)) m :
  let n := fst (getRetries (NewPubSubSubscriber opts) m) in
  (retries_attribute m = None → n = 0)
  ∧ (∀ v, retries_attribute m = Some v →
       match snd (strconv.Atoi v) with
       | Some strconv.ErrSyntax => n = 0
       | Some strconv.ErrRange => n = strconv.maxInt ∨ n = strconv.minInt
       | None => n = fst (strconv.Atoi v)
       end)
  ∧ (∀ v, retries_attribute m = Some v →
       is_decimal_integer v = false → (String.length v < 19)%nat → n = 0).
Proof.
  intros n. subst n. rewrite getRetries_lookup by done.
  split; [by intros ->|]. split.
  - intros v ->. destruct (snd (strconv.Atoi v)) as [[]|] eqn:E; [| |done].
    + by apply Atoi_syntax_zero.
    + by apply Atoi_range_saturates.
  - intros v -> Hd Hl. by rewrite (Atoi_malformed v Hd Hl).
Qed.

End Retries.


Section RetryCount.

Context {Body : Type}.
Variable s : PubSubSubscriber Body.



End RetryCount.

(** ** The properties on the sample configuration *)

(** C1 on the sample: the payload -7 makes the handler panic. *)
Lemma handler_panic_not_dead_lettered_witness :
  ∃ w', callback Sample.marshal Sample.subscriber (Sample.fresh "m1" "-7")
          Sample.provisioned
        = (Ret (), Sample.fresh "m1" "-7", w')
    ∧ trace w' = trace Sample.provisioned
        ++ [processing_log (Sample.fresh "m1" "-7"); EvHandle "m1"]
    ∧ published w' = published Sample.provisioned
    ∧ ack_count "m1" w' = ack_count "m1" Sample.provisioned.
Proof.
  apply (handler_panic_not_dead_lettered Sample.marshal Sample.subscriber
           (Sample.fresh "m1" "-7") (-7) "negative order" Sample.provisioned);
    reflexivity.
Defined.

(** C2 on the sample: a first delivery of the payload 7, which the handler
    rejects. *)
Lemma retry_also_dead_letters_witness :
  ∃ m' w', callback Sample.marshal Sample.subscriber (Sample.fresh "m1" "7")
             Sample.provisioned = (Ret (), m', w')
    ∧ published w' = published Sample.provisioned
        ++ [mkPublished "orders" (Sample.bytes "7")
              (retry_attributes Sample.subscriber (Sample.fresh "m1" "7"));
            dead_letter Sample.subscriber (Sample.fresh "m1" "7") "order rejected"]
    ∧ ack_count "m1" w' = (2 + ack_count "m1" Sample.provisioned)%nat.
Proof.
  apply (retry_also_dead_letters Sample.marshal Sample.subscriber
           (Sample.fresh "m1" "7") 7 (Sample.bytes "7") "order rejected"
           Sample.provisioned);
    [reflexivity | reflexivity | reflexivity | vm_compute; reflexivity
    | constructor].
Defined.

(** C3 on the sample: the same payload with a retry count of 2, the limit. *)
Lemma exhausted_dead_letters_twice_witness :
  ∃ m' w', callback Sample.marshal Sample.subscriber
             (Sample.retried "m1" "7" "2") Sample.provisioned = (Ret (), m', w')
    ∧ published w' = published Sample.provisioned
        ++ [dead_letter Sample.subscriber (Sample.retried "m1" "7" "2") "order rejected";
            dead_letter Sample.subscriber (Sample.retried "m1" "7" "2") "order rejected"]
    ∧ ack_count "m1" w' = (2 + ack_count "m1" Sample.provisioned)%nat.
Proof.
  apply (exhausted_dead_letters_twice Sample.marshal Sample.subscriber
           (Sample.retried "m1" "7" "2") 7 "order rejected" Sample.provisioned);
    [reflexivity | reflexivity | vm_compute; discriminate | constructor].
Defined.

(** C4 on the sample. *)
Lemma handler_error_dead_lettered_again_witness :
  let m := Sample.fresh "m1" "7" in
  ∃ m1 w1 w2,
    guarded Sample.marshal Sample.subscriber m 7 Sample.provisioned
    = (Some "order rejected", None, m1, w1)
    ∧ (∃ t, trace w1 = t ++ [EvAck "m1"])
    ∧ callback Sample.marshal Sample.subscriber m Sample.provisioned
      = (Ret (), m1, w2)
    ∧ trace w2 = trace w1
        ++ [panicked_log m "order rejected"; dlq_log Sample.subscriber m; EvAck "m1"]
    ∧ ack_count "m1" w2 = (2 + ack_count "m1" Sample.provisioned)%nat
    ∧ (published w2 = published w1
       ∨ published w2 = published w1
           ++ [dead_letter Sample.subscriber m "order rejected"])
    ∧ (reliable w1 →
       published w2 = published w1
         ++ [dead_letter Sample.subscriber m "order rejected"]).
Proof.
  apply (handler_error_dead_lettered_again Sample.marshal Sample.subscriber
           (Sample.fresh "m1" "7") 7 "order rejected" Sample.provisioned);
    reflexivity.
Defined.

(** C5 on the sample: the payload of the spec's scenario. *)
Lemma unmarshal_failure_dead_lettered_witness :
  let m := Sample.fresh "m1" "not-json" in
  let e := "json: cannot unmarshal into Go value of type int" in
  ∃ w', callback Sample.marshal Sample.subscriber m Sample.provisioned
        = (Ret (), m, w')
    ∧ trace w' = trace Sample.provisioned
        ++ [unmarshal_error_log m e; dlq_log Sample.subscriber m; EvAck "m1"]
    ∧ ack_count "m1" w' = S (ack_count "m1" Sample.provisioned)
    ∧ handle_count "m1" w' = handle_count "m1" Sample.provisioned
    ∧ (published w' = published Sample.provisioned
       ∨ published w' = published Sample.provisioned
           ++ [dead_letter Sample.subscriber m e])
    ∧ (reliable Sample.provisioned →
       published w' = published Sample.provisioned
         ++ [dead_letter Sample.subscriber m e]).
Proof.
  apply (unmarshal_failure_dead_lettered Sample.marshal Sample.subscriber
           (Sample.fresh "m1" "not-json")
           "json: cannot unmarshal into Go value of type int" Sample.provisioned);
    reflexivity.
Defined.

(** C6 on the sample: nothing exists on the service, which answers the two
    existence checks and the creation of the topic, and fails the creation of
    the subscription. *)
Lemma Run_creation_error_panics_witness :
  ∃ w1, Run Sample.marshal Sample.subscriber []
          (Sample.planned [None; None; None; Some "rpc error: code = Unavailable"])
        = (Panic nil_dereference, w1).
Proof.
  eexists.
  eapply (Run_creation_error_panics Sample.marshal Sample.subscriber []
            (Sample.planned [None; None; None; Some "rpc error: code = Unavailable"])
            None "rpc error: code = Unavailable");
    reflexivity.
Defined.

(** The same at the existence check of the topic, while an error of the
    existence check of the subscription is returned. *)
Example Run_topic_check_error_panics :
  fst (Run Sample.marshal Sample.subscriber []
         (Sample.planned [None; Some "rpc error: code = Unavailable"]))
  = Panic nil_dereference.
Proof. reflexivity. Qed.

Example Run_subscription_check_error_returned :
  fst (Run Sample.marshal Sample.subscriber []
         (Sample.planned [Some "rpc error: code = Unavailable"]))
  = Ret (Some "rpc error: code = Unavailable").
Proof. reflexivity. Qed.

(** C9 on the sample: the first call creates the topic and the
    subscription. *)
Lemma provisioning_idempotent_witness :
  let first := createSubscriptionIfNotExists "orders-sub" "orders" (10 * Second)
                 Sample.empty in
  ∃ w2, createSubscriptionIfNotExists "orders-sub" "orders" (10 * Second) (snd first)
        = ((Some (mkSubscription "orders-sub" DefaultMaxOutstandingMessages), None), w2)
    ∧ topics w2 = topics (snd first)
    ∧ subscriptions w2 = subscriptions (snd first)
    ∧ published w2 = published (snd first)
    ∧ trace w2 = trace (snd first).
Proof.
  apply (provisioning_idempotent "orders-sub" "orders" (10 * Second) Sample.empty);
    reflexivity.
Defined.

(** C10 on the sample: the count has reached the limit and the service
    fails the first call of [dlq]. *)
Lemma publish_failure_logged_and_acked_witness :
  let m := Sample.retried "m1" "7" "2" in
  let w := Sample.planned [Some "rpc error: code = Unavailable"] in
  ∃ m1 w2,
    callback Sample.marshal Sample.subscriber m w = (Ret (), m1, w2)
    ∧ ack_count "m1" w2 = 2%nat
    ∧ trace w2
      = [processing_log m; EvHandle "m1"; handler_error_log m "order rejected";
         dlq_log Sample.subscriber m;
         dlq_error_log m "rpc error: code = Unavailable";
         sending_ack_log m; EvAck "m1";
         panicked_log m "order rejected"; dlq_log Sample.subscriber m; EvAck "m1"].
Proof.
  intros m w.
  destruct (publish_failure_logged_and_acked Sample.marshal Sample.subscriber
              m 7 "order rejected" w eq_refl eq_refl)
    as (m1 & w2 & E & A & D & _).
  exists m1, w2. split; [exact E|]. split; [exact A|].
  rewrite (D "rpc error: code = Unavailable"
             (snd (dlq Sample.marshal Sample.subscriber
                     (snd (getRetries Sample.subscriber m)) "order rejected"
                     (emit (handler_error_log m "order rejected")
                        (emit (EvHandle (ID m)) (emit (processing_log m) w))))));
    [reflexivity | vm_compute; discriminate | reflexivity].
Defined.

(** C7, amended, on the sample. *)
Lemma handler_invoked_then_exhausted_dead_lettered_witness :
  let m := Sample.retried "m1" "7" "2" in
  ∃ m' w', callback Sample.marshal Sample.subscriber m Sample.provisioned
           = (Ret (), m', w')
    ∧ handle_count "m1" w' = 1%nat
    ∧ ∃ new, published w' = new
             ∧ Forall (λ p, p = dead_letter Sample.subscriber m "order rejected") new
             ∧ new ≠ [].
Proof.
  intros m.
  destruct (handler_invoked_then_exhausted_dead_lettered Sample.marshal
              Sample.subscriber m 7 Sample.provisioned eq_refl)
    as (m' & w' & E & Hc & P).
  exists m', w'. split; [exact E|]. split; [exact Hc|].
  destruct (P "order rejected" eq_refl) as (new & Pn & F & N).
  - vm_compute. discriminate.
  - exists new. split; [exact Pn|]. split; [exact F|]. apply N. constructor.
Defined.

(** C8, amended, on the sample: no attribute, a word, and a number below
    the smallest [int]. *)
Lemma getRetries_missing_or_malformed_witness :
  fst (getRetries Sample.subscriber (Sample.fresh "m1" "7")) = 0
  ∧ fst (getRetries Sample.subscriber (Sample.retried "m1" "7" "two")) = 0
  ∧ (fst (getRetries Sample.subscriber
            (Sample.retried "m1" "7" "-99999999999999999999")) = strconv.maxInt
     ∨ fst (getRetries Sample.subscriber
              (Sample.retried "m1" "7" "-99999999999999999999")) = strconv.minInt).
Proof.
  pose (opts := [WithPubSubSubscriberID "orders-sub"; WithTopicID "orders";
                 WithType Sample.unmarshal; WithHandler Sample.handle;
                 WithMaxRetries 2]).
  split; [|split].
  - destruct (getRetries_missing_or_malformed opts (Sample.fresh "m1" "7"))
      as (H & _ & _).
    exact (H eq_refl).
  - destruct (getRetries_missing_or_malformed opts (Sample.retried "m1" "7" "two"))
      as (_ & _ & H).
    apply (H "two"); [reflexivity | reflexivity | simpl; lia].
  - destruct (getRetries_missing_or_malformed opts
                (Sample.retried "m1" "7" "-99999999999999999999"))
      as (_ & H & _).
    exact (H "-99999999999999999999" eq_refl).
Defined.

(** C7, as stated, fails.  With a limit of 2, a message whose ["retries"]
    attribute is 2 is handed to the handler; the handler accepts it, and
    nothing is dead-lettered. *)
Lemma exhausted_message_reaches_handler :
  let m := Sample.retried "m1" "0" "2" in
  let w' := snd (callback Sample.marshal Sample.subscriber m Sample.provisioned) in
  maxRetries Sample.subscriber ≤ fst (getRetries Sample.subscriber m)
  ∧ handle_count "m1" w' = 1%nat
  ∧ published w' = [].
Proof. vm_compute. split; [discriminate|done]. Qed.

(** C8, as stated, fails.  The attribute value is a run of twenty nines:
    [strconv.Atoi] cannot parse it into an [int], answers a range error, and
    [getRetries] returns the largest [int], not 0. *)
Lemma getRetries_out_of_range :
  let m := Sample.retried "m1" "7" "99999999999999999999" in
  retries_attribute m = Some "99999999999999999999"
  ∧ snd (strconv.Atoi "99999999999999999999") = Some strconv.ErrRange
  ∧ fst (getRetries Sample.subscriber m) = 9223372036854775807.
Proof. vm_compute. done. Qed.

(** The scenario of the spec: topic [orders], limit 2, a payload that the
    handler rejects.  The first delivery has no ["retries"] attribute; the
    second and third are the republished messages.  Each failed delivery
    also leaves a dead-letter message. *)
Example orders_scenario :
  let run m w := snd (callback Sample.marshal Sample.subscriber m w) in
  let w1 := run (Sample.fresh "m1" "7") Sample.provisioned in
  let w2 := run (deliver "m2" (default (mkPublished "" [] ∅) (published w1 !! 0%nat))) w1 in
  let w3 := run (deliver "m3" (default (mkPublished "" [] ∅) (published w2 !! 2%nat))) w2 in
  map (λ p, (pTopic p, pAttributes p !! "retries")) (published w3)
  = [("orders", Some "1"); ("orders_dlq", None);
     ("orders", Some "2"); ("orders_dlq", None);
     ("orders_dlq", None); ("orders_dlq", None)].
Proof. vm_compute. reflexivity. Qed.

(** * Further properties *)

(** ** The constructor and its options *)

Section Construction.

Context {Body : Type}.
Implicit Types opts : list (@PubSubSubscriberOption Body).

Lemma foldl_options_preserve {A} (f : PubSubSubscriber Body → A) opts s0 :
  Forall (λ opt, ∀ s, f (opt s) = f s) opts →
  f (foldl (λ s opt, opt s) s0 opts) = f s0.
Proof.
  intros H. revert s0. induction H as [|opt opts Ho _ IH]; intros s0; [done|].
  simpl. by rewrite IH, Ho.
Qed.

(** X1.  A subscriber built from options that set only the handler, the
    identifiers and the type has the defaults: a retry limit of 5, a
    deadline of ten seconds, the transport's number of outstanding messages,
    and the attribute key ["retries"]. *)
Theorem NewPubSubSubscriber_defaults opts :
  Forall basic_option opts →
  maxRetries (NewPubSubSubscriber opts) = 5
  ∧ ackDeadline (NewPubSubSubscriber opts) = 10 * Second
  ∧ maxOutstandingMessages (NewPubSubSubscriber opts) = DefaultMaxOutstandingMessages
  ∧ maxRetriesAttribute (NewPubSubSubscriber opts) = "retries".
Proof.
  intros H. unfold NewPubSubSubscriber.
  cbn [maxRetries ackDeadline maxOutstandingMessages maxRetriesAttribute].
  repeat split.
  - rewrite (foldl_options_preserve maxRetries); [done|].
    eapply Forall_impl; [exact H|].
    intros opt [[h ->]|[[id ->]|[[t ->]|[t ->]]]] s; done.
  - rewrite (foldl_options_preserve ackDeadline); [done|].
    eapply Forall_impl; [exact H|].
    intros opt [[h ->]|[[id ->]|[[t ->]|[t ->]]]] s; done.
  - rewrite (foldl_options_preserve maxOutstandingMessages); [done|].
    eapply Forall_impl; [exact H|].
    intros opt [[h ->]|[[id ->]|[[t ->]|[t ->]]]] s; done.
Qed.

(** X2.  Options are applied in order, so the last one to set a field
    decides it, whatever the options before it are; the attribute key is
    written after all of them and is ["retries"] whatever they do. *)
Theorem NewPubSubSubscriber_last_option_wins opts :
  (∀ n, maxRetries (NewPubSubSubscriber (opts ++ [WithMaxRetries n])) = n)
  ∧ (∀ t, topicID (NewPubSubSubscriber (opts ++ [WithTopicID t])) = t)
  ∧ (∀ id, subscriberID
             (NewPubSubSubscriber (opts ++ [WithPubSubSubscriberID id])) = id)
  ∧ (∀ d, ackDeadline (NewPubSubSubscriber (opts ++ [WithAckDeadline d])) = d)
  ∧ (∀ n, maxOutstandingMessages
            (NewPubSubSubscriber (opts ++ [WithMaxOutstandingMessages n])) = n)
  ∧ (∀ h, handler (NewPubSubSubscriber (opts ++ [WithHandler h])) = Some h)
  ∧ (∀ t, handleType (NewPubSubSubscriber (opts ++ [WithType t])) = Some t)
  ∧ maxRetriesAttribute (NewPubSubSubscriber opts) = "retries".
Proof.
  unfold NewPubSubSubscriber. repeat split; intros; by rewrite foldl_app.
Qed.

End Construction.

(** ** [getRetries] and [retry] *)

Section Counting.

Context {Body : Type}.
Variable marshal : Body → list Byte.byte + error.
Variable s : PubSubSubscriber Body.

(** X3.  [getRetries] reads back a count written in decimal: when the
    attribute holds the decimal representation of an [int], that [int] is
    returned and the message is left as it is. *)
Theorem getRetries_reads_count m a n :
  Attributes m = Some a → a !! maxRetriesAttribute s = Some (strconv.Itoa n) →
  strconv.minInt ≤ n ≤ strconv.maxInt →
  getRetries s m = (n, m).
Proof.
  intros Ha Hk Hn. unfold getRetries. rewrite Ha. simpl. rewrite Hk.
  rewrite Atoi_Itoa by done. simpl. f_equal. destruct m; simpl in *. by subst.
Qed.

(** X4.  [getRetries] returns an [int] whatever the attribute holds, keeps
    the identifier, the payload and every attribute of the message, leaves
    it with an allocated map, and returns the same on a second call. *)
Theorem getRetries_keeps_the_message m :
  let '(n, m') := getRetries s m in
  strconv.minInt ≤ n ≤ strconv.maxInt
  ∧ ID m' = ID m ∧ Data m' = Data m
  ∧ (∃ a, Attributes m' = Some a
          ∧ ∀ k, a !! k = Attributes m ≫= (λ a0 : gmap string string, a0 !! k))
  ∧ getRetries s m' = (n, m').
Proof.
  unfold getRetries. simpl. repeat split.
  - case_match; [apply Atoi_int_range|done].
  - case_match; [apply Atoi_int_range|done].
  - eexists. split; [done|]. intros k.
    destruct (Attributes m); simpl; [done|]. by rewrite lookup_empty.
Qed.

(** X5.  [retry] never panics; it keeps the identifier, the payload and
    every attribute but the count, which it overwrites, in the message
    itself, whether or not the publish succeeds; and it creates no topic or
    subscription and writes no log entry. *)
Theorem retry_keeps_the_rest m body w :
  ∃ err a' w',
    retry marshal s m body w = (Ret err, mkMessage (ID m) (Data m) (Some a'), w')
    ∧ a' !! maxRetriesAttribute s
      = Some (strconv.Itoa (strconv.wrap_int (fst (getRetries s m) + 1)))
    ∧ (∀ k, k ≠ maxRetriesAttribute s →
            a' !! k = Attributes m ≫= (λ a : gmap string string, a !! k))
    ∧ topics w' = topics w ∧ subscriptions w' = subscriptions w
    ∧ trace w' = trace w.
Proof.
  destruct (retry_returns marshal s m body w) as (err & w' & E & T & _).
  exists err, (retry_attributes s m), w'. split; [exact E|].
  unfold retry_attributes. split; [by rewrite lookup_insert_eq|]. split.
  { intros k Hk. rewrite lookup_insert_ne by done.
    destruct (Attributes m); simpl; [done|]. by rewrite lookup_empty. }
  revert E. unfold retry, getRetries, PublishWihAttribrutes. simpl.
  destruct (marshal body) as [b|e'].
  - unfold Topic_Publish. pose proof (take_fault_rest w) as (? & ? & ? & ?).
    destruct (take_fault w) as [[f|] w1]; simpl in *; intros [= <- <-]; done.
  - by intros [= <- <-].
Qed.

(** When the body does not serialize, [retry] returns the error without a
    call to the service; the count of the message has been raised all the
    same. *)
Lemma retry_marshal_failure m body e w :
  marshal body = inr e →
  retry marshal s m body w
  = (Ret (Some e), set_Attributes m (retry_attributes s m), w).
Proof.
  intros M. unfold retry, retry_attributes, getRetries, PublishWihAttribrutes.
  simpl. by rewrite M.
Qed.

End Counting.

(** ** [dlq] *)

Section DeadLetters.

Context {Body : Type}.
Variable marshal : Body → list Byte.byte + error.
Variable s : PubSubSubscriber Body.

Lemma createTopicIfNotExists_ok topicID t w w' :
  createTopicIfNotExists topicID w = ((t, None), w') →
  topicID ∈ topics w' ∧ topics w ⊆ topics w'.
Proof.
  unfold createTopicIfNotExists, Topic_Exists, CreateTopic.
  pose proof (take_fault_rest w) as (T1 & _).
  destruct (take_fault w) as [[f|] w1]; simpl in *; [done|].
  case_bool_decide as Hin; simpl.
  { intros [= <- <-]. rewrite T1 in *. done. }
  pose proof (take_fault_rest w1) as (T2 & _).
  destruct (take_fault w1) as [[f|] w2]; simpl in *; [done|].
  case_bool_decide; simpl; [done|].
  intros [= <- <-]. simpl. rewrite T2, T1. split.
  - apply elem_of_union_l. by apply elem_of_singleton.
  - apply union_subseteq_r.
Qed.

Lemma createTopicIfNotExists_topics topicID w :
  topics w ⊆ topics (snd (createTopicIfNotExists topicID w))
  ∧ topics (snd (createTopicIfNotExists topicID w)) ⊆ {[topicID]} ∪ topics w.
Proof.
  unfold createTopicIfNotExists, Topic_Exists, CreateTopic.
  pose proof (take_fault_rest w) as (T1 & _).
  destruct (take_fault w) as [[f|] w1]; simpl in *;
    [rewrite T1; split; [done|apply union_subseteq_r]|].
  case_bool_decide as Hin; simpl;
    [rewrite T1; split; [done|apply union_subseteq_r]|].
  pose proof (take_fault_rest w1) as (T2 & _).
  destruct (take_fault w1) as [[f|] w2]; simpl in *;
    [rewrite T2, T1; split; [done|apply union_subseteq_r]|].
  case_bool_decide; simpl; rewrite T2, T1;
    split; (done || apply union_subseteq_r).
Qed.

(** X6.  [dlq] writes one log entry and touches no subscription.  It
    returns [nil] exactly when it has published, and then it has published
    one message, on [<topicID>_dlq], which exists from then on; that message
    holds the payload and the error and none of the attributes of the
    original, so no retry count, and its topic is not the subscriber's.  When
    [dlq] returns an error nothing has been published. *)
Theorem dlq_outcome m e w :
  let '(err, w') := dlq marshal s m e w in
  trace w' = trace w ++ [dlq_log s m]
  ∧ subscriptions w' = subscriptions w
  ∧ match err with
    | None =>
        published w' = published w ++ [dead_letter s m e]
        ∧ topicID s +:+ "_dlq" ∈ topics w'
        ∧ pTopic (dead_letter s m e) ≠ topicID s
        ∧ pData (dead_letter s m e) = Data m
        ∧ ∀ k, pAttributes (dead_letter s m e) !! k
               = if decide (k = "error") then Some e else None
    | Some _ => published w' = published w
    end.
Proof.
  pose proof (dlq_trace marshal s m e w) as T.
  pose proof (dlq_published marshal s m e w) as P.
  destruct (dlq marshal s m e w) as [err w'] eqn:E. simpl in *.
  split; [done|].
  assert (A : ∀ k, pAttributes (dead_letter s m e) !! k
                   = if decide (k = "error") then Some e else None).
  { intros k. unfold dead_letter. simpl. case_decide as Hk.
    - subst. by rewrite lookup_singleton_eq.
    - by rewrite lookup_singleton_ne. }
  revert E. unfold dlq, PublishWihAttribrutes.
  set (w0 := logf _ _ _ w).
  pose proof (createTopicIfNotExists_rest (topicID s +:+ "_dlq") w0) as (_ & _ & S0).
  destruct (createTopicIfNotExists _ w0) as [[t err0] w1] eqn:E1.
  simpl in S0. destruct err0 as [e0|].
  - intros [= <- <-]. split; [done|]. by destruct P as [[_ ?]|[? _]].
  - apply createTopicIfNotExists_ok in E1 as [Hin _].
    unfold Topic_Publish.
    pose proof (take_fault_rest w1) as (T1 & S1 & _).
    destruct (take_fault w1) as [[f|] w2]; simpl in *; intros [= <- <-]; simpl.
    + split; [congruence|]. by destruct P as [[_ ?]|[? _]].
    + split; [congruence|]. split; [by destruct P as [[? _]|[_ ?]]|].
      split; [by rewrite T1|]. split; [apply dlq_topic_distinct|]. done.
Qed.

End DeadLetters.

(** ** One delivery *)

Section OneDelivery.

Context {Body : Type}.
Variable marshal : Body → list Byte.byte + error.
Variable s : PubSubSubscriber Body.

Lemma callback_unmarshal_error m e w :
  decode s m = Ret (inr e) →
  callback marshal s m w
  = (Ret (), m, Ack m (snd (dlq marshal s m e (emit (unmarshal_error_log m e) w)))).
Proof.
  intros Hdec. unfold callback. rewrite Hdec.
  change (logf ErrorLevel _ _ w) with (emit (unmarshal_error_log m e) w).
  by destruct (dlq _ _ _ _ _).
Qed.

Ltac own_events :=
  repeat first
    [ apply Forall_nil_2
    | apply Forall_cons; split;
      [ first [ by left | by (right; left) | by (right; right) ] | ] ].

(** The events of one delivery. *)
Lemma callback_trace m w :
  ∃ evs, trace (snd (callback marshal s m w)) = trace w ++ evs
    ∧ Forall (own_event m) evs
    ∧ occurrences (EvHandle (ID m)) evs = (if deserializes s m then 1 else 0)%nat.
Proof.
  unfold deserializes.
  destruct (decode s m) as [[body|e]|v] eqn:Hdec.
  - destruct (invoke s body) as [[e|]|v] eqn:Hinv.
    + destruct (callback_handler_error_trace marshal s m body e w Hdec Hinv)
        as (m1 & w2 & logs & -> & L & T).
      eexists. split; [exact T|]. split.
      * repeat (apply Forall_app; split); own_events.
        eapply Forall_impl; [exact L|]. intros ev Hev. by left.
      * rewrite !occurrences_app, (occurrences_logs _ logs) by done.
        by count_events.
    + rewrite (callback_handler_ok marshal s m body w Hdec Hinv). simpl.
      rewrite <- !app_assoc. eexists. split; [done|]. split; [own_events|].
      by count_events.
    + rewrite (callback_handler_panic marshal s m body v w Hdec Hinv). simpl.
      rewrite <- !app_assoc. eexists. split; [done|]. split; [own_events|].
      by count_events.
  - rewrite (callback_unmarshal_error m e w Hdec). simpl.
    rewrite dlq_trace. simpl. rewrite <- !app_assoc.
    eexists. split; [done|]. split; [own_events|]. by count_events.
  - unfold callback. rewrite Hdec. exists []. by rewrite app_nil_r.
Qed.

Lemma occurrences_own_other m ev evs :
  Forall (own_event m) evs → is_log ev = false →
  ev ≠ EvHandle (ID m) → ev ≠ EvAck (ID m) → occurrences ev evs = 0%nat.
Proof.
  intros H Hl H1 H2. induction H as [|e evs He _ IH]; [done|].
  rewrite occurrences_cons_ne; [done|].
  intros ->. destruct He as [?|[?|?]]; congruence.
Qed.

(** X7.  The delivery of a message never acknowledges another message and
    never hands another message to the handler. *)
Theorem callback_touches_only_its_message m w id :
  id ≠ ID m →
  ack_count id (snd (callback marshal s m w)) = ack_count id w
  ∧ handle_count id (snd (callback marshal s m w)) = handle_count id w.
Proof.
  intros Hid. destruct (callback_trace m w) as (evs & T & F & _).
  unfold ack_count, handle_count. rewrite T, !occurrences_app.
  rewrite !(occurrences_own_other m _ evs) by (done || congruence). lia.
Qed.

(** X8.  A panic leaves the callback exactly when the subscriber has no
    payload type ([reflect.New] on a [nil] type, before the [defer]); with a
    type, every panic of the handler is recovered, a [nil] handler
    included. *)
Theorem callback_panics_iff_no_type m w :
  (∃ v, fst (fst (callback marshal s m w)) = Panic v) ↔ handleType s = None.
Proof.
  split.
  - intros [v Hv]. destruct (handleType s) as [t|] eqn:Ht; [|done].
    destruct (callback_never_panics marshal s m w) as (m' & w' & E);
      [by rewrite Ht|].
    by rewrite E in Hv.
  - intros Ht. unfold callback, decode. rewrite Ht. by eexists.
Qed.

(** X9.  When the handler returns [nil] the message is acknowledged once,
    nothing is published, no call is made to the service and the message is
    left as it was, whatever its retry count. *)
Theorem callback_success m body w :
  decode s m = Ret (inl body) → invoke s body = Ret None →
  ∃ w', callback marshal s m w = (Ret (), m, w')
    ∧ trace w' = trace w
        ++ [processing_log m; EvHandle (ID m); sending_ack_log m; EvAck (ID m)]
    ∧ ack_count (ID m) w' = S (ack_count (ID m) w)
    ∧ published w' = published w ∧ faults w' = faults w
    ∧ topics w' = topics w ∧ subscriptions w' = subscriptions w.
Proof.
  intros Hdec Hinv. rewrite (callback_handler_ok marshal s m body w Hdec Hinv).
  eexists. split; [done|]. simpl. rewrite <- !app_assoc. split; [done|].
  split; [|done]. unfold ack_count. simpl. rewrite <- !app_assoc.
  count_events. lia.
Qed.

(** X10.  When the handler returns an error below the limit and the body
    does not serialize, no retry reaches the topic: the failure is logged,
    the message is acknowledged, its count has been raised, and the only
    message that can be published is the dead-letter one. *)
Theorem callback_lost_retry m body e e' w :
  decode s m = Ret (inl body) → invoke s body = Ret (Some e) →
  fst (getRetries s m) < maxRetries s → marshal body = inr e' →
  ∃ m' w', callback marshal s m w = (Ret (), m', w')
    ∧ Attributes m' = Some (retry_attributes s m)
    ∧ trace w' = trace w
        ++ [processing_log m; EvHandle (ID m); handler_error_log m e;
            retry_error_log m e'; sending_ack_log m; EvAck (ID m);
            panicked_log m e; dlq_log s m; EvAck (ID m)]
    ∧ (published w' = published w
       ∨ published w' = published w ++ [dead_letter s m e]).
Proof.
  intros Hdec Hinv Hn M.
  destruct (callback_handler_error marshal s m body e w Hdec Hinv)
    as (m1 & w1 & G & E).
  destruct (guarded_handler_error marshal s m body e w Hinv)
    as (m1' & w1' & logs & C & _ & _ & G' & _ & _).
  rewrite G in G'. injection G' as -> ->.
  set (w0 := emit (handler_error_log m e) _) in C.
  unfold classify in C.
  destruct (getRetries s m) as [n mr] eqn:Gr.
  pose proof (getRetries_message s m) as Gm. rewrite Gr in Gm. simpl in Gm, Hn.
  subst mr. rewrite bool_decide_eq_false_2 in C by lia.
  assert (retry marshal s (set_Attributes m (default ∅ (Attributes m))) body w0
          = retry marshal s m body w0) as R by done.
  rewrite R, (retry_marshal_failure marshal s m body e' w0 M) in C.
  injection C as <- <-.
  eexists _, _. split; [exact E|]. split; [done|]. split.
  - simpl. rewrite dlq_trace. simpl. by rewrite <- !app_assoc.
  - destruct (dlq_published marshal s m e
                (emit (panicked_log m e)
                   (Ack m (emit (sending_ack_log m)
                             (logf ErrorLevel [("error", e')]
                                ("error retrying message " +:+ ID m) w0)))))
      as [[_ P]|[_ P]]; simpl; rewrite P; [by left|by right].
Qed.

(** X11.  With a payload type, a delivered message is left unacknowledged
    exactly when the handler panics on it. *)
Theorem callback_acks_unless_handler_panics m w :
  is_Some (handleType s) →
  (ack_count (ID m) w < ack_count (ID m) (snd (callback marshal s m w)))%nat
  ↔ ¬ handler_panics s m.
Proof.
  intros [t Ht]. unfold handler_panics.
  assert (Hdec : decode s m = Ret (t (Data m))) by (unfold decode; by rewrite Ht).
  destruct (t (Data m)) as [body|e] eqn:U.
  - destruct (invoke s body) as [[e|]|v] eqn:Hinv.
    + destruct (callback_handler_error_counts marshal s m body e w Hdec Hinv)
        as (m1 & w2 & -> & A & _).
      simpl. split; [|lia]. intros _ (b & v & Hb & Hv).
      rewrite Hdec in Hb. injection Hb as <-. congruence.
    + rewrite (callback_handler_ok marshal s m body w Hdec Hinv).
      unfold ack_count. simpl. rewrite <- !app_assoc. count_events.
      split; [|lia]. intros _ (b & v & Hb & Hv).
      rewrite Hdec in Hb. injection Hb as <-. congruence.
    + rewrite (callback_handler_panic marshal s m body v w Hdec Hinv).
      unfold ack_count. simpl. rewrite <- !app_assoc. count_events.
      split; [lia|]. intros H. exfalso. apply H. by eauto.
  - rewrite (callback_unmarshal_error m e w Hdec).
    unfold ack_count. simpl. rewrite dlq_trace. simpl.
    rewrite <- !app_assoc. count_events.
    split; [|lia]. intros _ (b & v & Hb & _). congruence.
Qed.

(** X12.  A delivery publishes at most two messages, and only on the topic
    of the subscriber or on its dead-letter topic. *)
Theorem callback_publishes_on_its_topics m w :
  ∃ new, published (snd (callback marshal s m w)) = published w ++ new
    ∧ (length new ≤ 2)%nat ∧ Forall (own_topic s) new.
Proof.
  assert (D : ∀ e w0, ∃ new,
             published (snd (dlq marshal s m e w0)) = published w0 ++ new
             ∧ (length new ≤ 1)%nat ∧ Forall (own_topic s) new).
  { intros e w0. destruct (dlq_published marshal s m e w0) as [[_ P]|[_ P]].
    - exists []. rewrite app_nil_r. split; [done|]. split; [simpl; lia|done].
    - exists [dead_letter s m e]. split; [done|]. split; [simpl; lia|].
      constructor; [by right|constructor]. }
  destruct (decode s m) as [[body|e]|v] eqn:Hdec.
  - destruct (invoke s body) as [[e|]|v] eqn:Hinv.
    + destruct (callback_handler_error marshal s m body e w Hdec Hinv)
        as (m1 & w1 & G & ->).
      destruct (guarded_handler_error marshal s m body e w Hinv)
        as (m1' & w1' & logs & C & _ & _ & G' & _ & _).
      rewrite G in G'. injection G' as -> ->.
      destruct (classify_spec marshal s m body e
                  (emit (handler_error_log m e)
                     (emit (EvHandle (ID m)) (emit (processing_log m) w))))
        as (m2 & w2 & logs2 & C' & _ & _ & _ & _ & P).
      rewrite C in C'. injection C' as <- <-.
      destruct (D e (emit (panicked_log m e) (Ack m (emit (sending_ack_log m) w1'))))
        as (second & P2 & L2 & F2).
      simpl in *. rewrite P2.
      destruct P as [P|[[_ P]|[_ (b & _ & P)]]]; rewrite P.
      * exists second. split; [done|]. split; [lia|done].
      * exists (dead_letter s m e :: second). rewrite <- app_assoc.
        split; [done|]. split; [simpl; lia|]. constructor; [by right|done].
      * eexists (_ :: second). rewrite <- app_assoc.
        split; [done|]. split; [simpl; lia|]. constructor; [by left|done].
    + rewrite (callback_handler_ok marshal s m body w Hdec Hinv).
      exists []. rewrite app_nil_r. split; [done|]. split; [simpl; lia|done].
    + rewrite (callback_handler_panic marshal s m body v w Hdec Hinv).
      exists []. rewrite app_nil_r. split; [done|]. split; [simpl; lia|done].
  - rewrite (callback_unmarshal_error m e w Hdec).
    destruct (D e (emit (unmarshal_error_log m e) w)) as (new & P & L & F).
    exists new. simpl in *. split; [done|]. split; [lia|done].
  - unfold callback. rewrite Hdec. exists []. rewrite app_nil_r.
    split; [done|]. split; [simpl; lia|done].
Qed.

End OneDelivery.

(** ** Provisioning *)

Section ProvisioningMore.




Lemma createSubscriptionIfNotExists_rest subID topic dl w :
  ∃ logs, trace (snd (createSubscriptionIfNotExists subID topic dl w)) = trace w ++ logs
    ∧ Forall (λ ev, is_log ev = true) logs
    ∧ published (snd (createSubscriptionIfNotExists subID topic dl w)) = published w.
Proof.
  unfold createSubscriptionIfNotExists, Subscription_Exists.
  pose proof (take_fault_rest w) as (_ & _ & P0 & T0).
  destruct (take_fault w) as [[f|] w0]; simpl in *.
  { exists []. by rewrite app_nil_r. }
  case_bool_decide; simpl.
  { exists []. by rewrite app_nil_r. }
  pose proof (createTopicIfNotExists_rest topic w0) as (P1 & T1 & _).
  destruct (createTopicIfNotExists topic w0) as [[t [e|]] w1]; simpl in *.
  { exists [EvLog ErrorLevel [("error", e)] ("error creating topic " +:+ topic)].
    rewrite T1, T0, P1, P0. by repeat constructor. }
  unfold CreateSubscription.
  pose proof (take_fault_rest w1) as (_ & _ & P2 & T2).
  destruct (take_fault w1) as [[f|] w2]; simpl in *.
  { eexists [_]. rewrite T2, T1, T0, P2, P1, P0. by repeat constructor. }
  case_bool_decide; simpl.
  { eexists [_]. rewrite T2, T1, T0, P2, P1, P0. by repeat constructor. }
  exists []. rewrite app_nil_r. simpl. split; [congruence|]. split; [done|].
  congruence.
Qed.

(** X14.  When [createSubscriptionIfNotExists] returns an error, no
    subscription has been created and nothing has been published; the only
    topic it can have created is the one it was given, and that one is not
    removed when the creation of the subscription fails. *)
Theorem createSubscriptionIfNotExists_error_creates_no_subscription
    subID topic dl w r e w' :
  createSubscriptionIfNotExists subID topic dl w = ((r, Some e), w') →
  subscriptions w' = subscriptions w ∧ published w' = published w
  ∧ topics w ⊆ topics w' ∧ topics w' ⊆ {[topic]} ∪ topics w.
Proof.
  unfold createSubscriptionIfNotExists, Subscription_Exists.
  pose proof (take_fault_rest w) as (T0 & S0 & P0 & _).
  destruct (take_fault w) as [[f|] w0]; simpl in *.
  { intros [= ? ? ?]; subst. rewrite T0. repeat split; try done.
    apply union_subseteq_r. }
  case_bool_decide; simpl; [done|].
  pose proof (createTopicIfNotExists_rest topic w0) as (P1 & _ & S1).
  pose proof (createTopicIfNotExists_topics topic w0) as (T1 & T1').
  rewrite T0 in T1, T1'.
  destruct (createTopicIfNotExists topic w0) as [[t [e1|]] w1]; simpl in *.
  { intros [= ? ? ?]; subst. simpl. repeat split; try congruence; done. }
  unfold CreateSubscription.
  pose proof (take_fault_rest w1) as (T2 & S2 & P2 & _).
  destruct (take_fault w1) as [[f|] w2]; simpl in *.
  { intros [= ? ? ?]; subst. simpl. rewrite T2.
    repeat split; try congruence; done. }
  case_bool_decide; simpl; [|done].
  intros [= ? ? ?]; subst. simpl. rewrite T2. repeat split; try congruence; done.
Qed.


End ProvisioningMore.

(** ** [Run] *)

Section Running.

Context {Body : Type}.
Variable marshal : Body → list Byte.byte + error.
Variable s : PubSubSubscriber Body.




(** X16.  When provisioning returns an error, [Run] ends, by returning that
    error or by panicking, before any delivery: no message is handed to the
    handler, acknowledged or published. *)
Theorem Run_startup_failure_touches_no_message ms w r e w1 :
  createSubscriptionIfNotExists (subscriberID s) (topicID s) (ackDeadline s) w
  = ((r, Some e), w1) →
  ∃ out w', Run marshal s ms w = (out, w')
    ∧ (out = Panic nil_dereference ∨ out = Ret (Some e))
    ∧ published w' = published w
    ∧ ∀ id, handle_count id w' = handle_count id w
            ∧ ack_count id w' = ack_count id w.
Proof.
  intros E. unfold Run. rewrite E.
  destruct (createSubscriptionIfNotExists_rest (subscriberID s) (topicID s)
              (ackDeadline s) w) as (logs & T & L & P).
  rewrite E in T, P. simpl in T, P.
  destruct r as [sub|]; eexists _, _; (split; [done|]).
  - split; [by right|]. split; [done|]. intros id.
    unfold handle_count, ack_count. simpl. rewrite T, !occurrences_app.
    rewrite !(occurrences_logs _ logs) by done. count_events. lia.
  - split; [by left|]. split; [done|]. intros id.
    unfold handle_count, ack_count. rewrite T, !occurrences_app.
    rewrite !(occurrences_logs _ logs) by done. lia.
Qed.

End Running.

(** ** The further properties on the sample configuration *)

(** X1 on the options of the sample without its retry limit. *)
Lemma NewPubSubSubscriber_defaults_witness :
  let opts := [WithPubSubSubscriberID "orders-sub"; WithTopicID "orders";
               WithType Sample.unmarshal; WithHandler Sample.handle] in
  maxRetries (NewPubSubSubscriber opts) = 5
  ∧ ackDeadline (NewPubSubSubscriber opts) = 10 * Second
  ∧ maxOutstandingMessages (NewPubSubSubscriber opts) = DefaultMaxOutstandingMessages
  ∧ maxRetriesAttribute (NewPubSubSubscriber opts) = "retries".
Proof.
  apply NewPubSubSubscriber_defaults.
  apply Forall_cons; split; [right; left; by eexists|].
  apply Forall_cons; split; [right; right; left; by eexists|].
  apply Forall_cons; split; [right; right; right; by eexists|].
  apply Forall_cons; split; [left; by eexists|].
  apply Forall_nil_2.
Defined.

(** X3 on the sample: a count of 2. *)
Lemma getRetries_reads_count_witness :
  getRetries Sample.subscriber (Sample.retried "m1" "7" "2")
  = (2, Sample.retried "m1" "7" "2").
Proof.
  apply (getRetries_reads_count Sample.subscriber (Sample.retried "m1" "7" "2")
           {["retries" := "2"]} 2); [reflexivity | reflexivity | ].
  unfold strconv.minInt, strconv.maxInt. lia.
Defined.

(** X7 on the sample: the delivery of [m1] leaves the counts of [m2]. *)
Lemma callback_touches_only_its_message_witness :
  let w' := snd (callback Sample.marshal Sample.subscriber (Sample.fresh "m1" "7")
                   Sample.provisioned) in
  ack_count "m2" w' = ack_count "m2" Sample.provisioned
  ∧ handle_count "m2" w' = handle_count "m2" Sample.provisioned.
Proof.
  apply (callback_touches_only_its_message Sample.marshal Sample.subscriber
           (Sample.fresh "m1" "7") Sample.provisioned "m2").
  discriminate.
Defined.

(** X9 on the sample: the payload 0, which the handler accepts, with a
    count at the limit. *)
Lemma callback_success_witness :
  let m := Sample.retried "m1" "0" "2" in
  ∃ w', callback Sample.marshal Sample.subscriber m Sample.provisioned
        = (Ret (), m, w')
    ∧ trace w' = trace Sample.provisioned
        ++ [processing_log m; EvHandle (ID m); sending_ack_log m; EvAck (ID m)]
    ∧ ack_count (ID m) w' = S (ack_count (ID m) Sample.provisioned)
    ∧ published w' = published Sample.provisioned
    ∧ faults w' = faults Sample.provisioned
    ∧ topics w' = topics Sample.provisioned
    ∧ subscriptions w' = subscriptions Sample.provisioned.
Proof.
  apply (callback_success Sample.marshal Sample.subscriber
           (Sample.retried "m1" "0" "2") 0 Sample.provisioned); reflexivity.
Defined.

(** X10 on the sample, with an encoder that fails. *)
Lemma callback_lost_retry_witness :
  let m := Sample.fresh "m1" "7" in
  let marshal := λ _ : Z, inr "json: unsupported value" in
  ∃ m' w', callback marshal Sample.subscriber m Sample.provisioned
           = (Ret (), m', w')
    ∧ Attributes m' = Some (retry_attributes Sample.subscriber m)
    ∧ trace w' = trace Sample.provisioned
        ++ [processing_log m; EvHandle (ID m); handler_error_log m "order rejected";
            retry_error_log m "json: unsupported value";
            sending_ack_log m; EvAck (ID m);
            panicked_log m "order rejected"; dlq_log Sample.subscriber m;
            EvAck (ID m)]
    ∧ (published w' = published Sample.provisioned
       ∨ published w' = published Sample.provisioned
           ++ [dead_letter Sample.subscriber m "order rejected"]).
Proof.
  apply (callback_lost_retry (λ _ : Z, inr "json: unsupported value")
           Sample.subscriber (Sample.fresh "m1" "7") 7 "order rejected"
           "json: unsupported value" Sample.provisioned);
    [reflexivity | reflexivity | vm_compute; reflexivity | reflexivity].
Defined.

(** X11 on the sample: the payload -7 makes the handler panic, and the
    message is not acknowledged. *)
Lemma callback_acks_unless_handler_panics_witness :
  let m := Sample.fresh "m1" "-7" in
  (ack_count (ID m) Sample.provisioned
   < ack_count (ID m)
       (snd (callback Sample.marshal Sample.subscriber m Sample.provisioned)))%nat
  ↔ ¬ handler_panics Sample.subscriber m.
Proof.
  apply (callback_acks_unless_handler_panics Sample.marshal Sample.subscriber
           (Sample.fresh "m1" "-7") Sample.provisioned).
  by eexists.
Defined.


(** X14 on the sample: the topic is created, the creation of the
    subscription fails. *)
Lemma createSubscriptionIfNotExists_error_creates_no_subscription_witness :
  let w := Sample.planned [None; None; None; Some "rpc error: code = Unavailable"] in
  let w' := snd (createSubscriptionIfNotExists "orders-sub" "orders" (10 * Second) w) in
  subscriptions w' = subscriptions w ∧ published w' = published w
  ∧ topics w ⊆ topics w' ∧ topics w' ⊆ {["orders"]} ∪ topics w.
Proof.
  intros w w'.
  apply (createSubscriptionIfNotExists_error_creates_no_subscription
           "orders-sub" "orders" (10 * Second) w None
           "rpc error: code = Unavailable" w').
  reflexivity.
Defined.


(** X16 on the sample: the creation of the subscription fails. *)
Lemma Run_startup_failure_touches_no_message_witness :
  let w := Sample.planned [None; None; None; Some "rpc error: code = Unavailable"] in
  ∃ out w', Run Sample.marshal Sample.subscriber [Sample.fresh "m1" "7"] w = (out, w')
    ∧ (out = Panic nil_dereference ∨ out = Ret (Some "rpc error: code = Unavailable"))
    ∧ published w' = published w
    ∧ ∀ id, handle_count id w' = handle_count id w
            ∧ ack_count id w' = ack_count id w.
Proof.
  intros w.
  eapply (Run_startup_failure_touches_no_message Sample.marshal Sample.subscriber
            [Sample.fresh "m1" "7"] w None "rpc error: code = Unavailable").
  reflexivity.
Defined.

